(** * fetch-api: a fetch wrapper with access-token refresh

    Verification development for the three variants of the client found in
    the repository:

    - [Fwr]        : src/fwr.ts (and its build, the first class of index.js);
    - [FetchApiTs] : the TypeScript [FetchApi] with the [convertToFormdata]
                     flag (the earlier extended variant);
    - [FetchApi]   : the [FetchApi] class of index.js (the later extended
                     variant, with the three constructor forms).

    The client is embedded shallowly: JavaScript values are an inductive
    type, the header collection and the local storage are finite maps, the
    transport is an oracle over the requests sent so far, and every method is
    a function on an explicit world that also records an effect trace. *)

From Stdlib Require Import ZArith Ascii.
From stdpp Require Import base option list gmap strings pretty fin_maps.

Set Warnings "-register-all".

(* ===================================================================== *)
(** * Part I. JavaScript values                                           *)
(* ===================================================================== *)

Module Js.

(** A [File] (a [Blob] with a name): only its identity matters here. *)
Record File := mkFile { file_name : string; file_data : string }.

(** One entry of a [FormData]: [append] stores a file as it is and
    converts every other value to a string. *)
Inductive FormEntry :=
| FEString (s : string)
| FEFile (f : File).

Definition FormData := list (string * FormEntry).

(** The values the client handles. Numbers are restricted to integers,
    printed in decimal (the exponent notation of large numbers is not
    modelled). An object is plain data: the list of its own enumerable
    properties in enumeration order, with distinct keys that do not shadow
    builtin methods. *)
Inductive Value :=
| VUndefined
| VNull
| VBool (b : bool)
| VNum (n : Z)
| VStr (s : string)
| VArr (items : list Value)
| VObj (props : list (string * Value))
| VFile (f : File)
| VFileList (files : list File)
| VFormData (fd : FormData).

(** What a rejected promise (or a [throw]) carries. *)
Inductive Exn :=
| ExnValue (v : Value)      (* [throw v] with a plain value *)
| ExnTypeError              (* a TypeError raised by the runtime *)
| ExnNetwork                (* the transport itself rejected *)
| ExnBody.                  (* [response.json()] rejected *)

(** The settlement of a promise. *)
Inductive Completion (A : Type) :=
| Resolve (a : A)
| Reject (e : Exn).
Arguments Resolve {A} a.
Arguments Reject {A} e.

(** [instanceof] tests. *)
Definition is_FormData (v : Value) : bool :=
  match v with VFormData _ => true | _ => false end.
Definition is_File (v : Value) : bool :=
  match v with VFile _ => true | _ => false end.
Definition is_FileList (v : Value) : bool :=
  match v with VFileList _ => true | _ => false end.
Definition is_Array (v : Value) : bool :=
  match v with VArr _ => true | _ => false end.

(** ToBoolean. *)
Definition truthy (v : Value) : bool :=
  match v with
  | VUndefined | VNull | VBool false | VNum 0 | VStr EmptyString => false
  | _ => true
  end.

(** [v ?? d]. *)
Definition nullish_or (v d : Value) : Value :=
  match v with VUndefined | VNull => d | _ => v end.

(** First binding of a key in a property list. *)
Fixpoint assoc (k : string) (props : list (string * Value)) : option Value :=
  match props with
  | [] => None
  | (k', v) :: rest => if decide (k = k') then Some v else assoc k rest
  end.

(** [v.name] for a property name that is neither an array index nor a
    builtin member: [None] is the TypeError raised on [undefined]/[null]. *)
Definition get_member (v : Value) (name : string) : option Value :=
  match v with
  | VUndefined | VNull => None
  | VObj props => Some (default VUndefined (assoc name props))
  | _ => Some VUndefined
  end.

(** ToString, as used by template literals, [FormData.append] and
    [localStorage.setItem]. *)
Fixpoint to_string (v : Value) : string :=
  match v with
  | VUndefined => "undefined"
  | VNull => "null"
  | VBool true => "true"
  | VBool false => "false"
  | VNum n => pretty n
  | VStr s => s
  | VArr items =>
      (fix join (l : list Value) : string :=
         match l with
         | [] => ""
         | x :: l' =>
             (match x with VUndefined | VNull => "" | _ => to_string x end)
             +:+ (match l' with [] => "" | _ => "," +:+ join l' end)
         end) items
  | VObj _ => "[object Object]"
  | VFile _ => "[object File]"
  | VFileList _ => "[object FileList]"
  | VFormData _ => "[object FormData]"
  end.

(** Own enumerable string-keyed properties, in enumeration order: what
    [Object.values] and [for ... in] visit. [None] is the TypeError of
    [Object.values(undefined)] and [Object.values(null)]. A [File] and a
    [FormData] have none; for a [FileList] only the indexed entries are
    listed. *)
Definition index_keys {A} (l : list A) : list (string * A) :=
  imap (λ i x, (pretty i, x)) l.

Fixpoint chars (s : string) : list Value :=
  match s with
  | EmptyString => []
  | String c s' => VStr (String c EmptyString) :: chars s'
  end.

Definition own_props (v : Value) : option (list (string * Value)) :=
  match v with
  | VUndefined | VNull => None
  | VObj props => Some props
  | VArr items => Some (index_keys items)
  | VStr s => Some (index_keys (chars s))
  | VFileList files => Some (index_keys (VFile <$> files))
  | _ => Some []
  end.

Definition Object_values (v : Value) : option (list Value) :=
  fmap (M:=list) snd <$> own_props v.

(** [arr.find(p)] is truthy exactly when some element satisfies [p]
    and that element is truthy; every element tested here is an object. *)
Definition find_truthy (p : Value → bool) (l : list Value) : bool :=
  match List.find p l with
  | Some x => truthy x
  | None => false
  end.

End Js.

(* ===================================================================== *)
(** * Part II. JSON text                                                  *)
(* ===================================================================== *)

(** [JSON.stringify] and [JSON.parse] on the values above. Strings are
    byte strings, numbers are integers. *)
Module Json.
Import Js.

Definition dquote : ascii := "034"%char.
Definition backslash : ascii := "\"%char.

Definition hex_char (n : N) : ascii :=
  match n with
  | 0 => "0" | 1 => "1" | 2 => "2" | 3 => "3" | 4 => "4" | 5 => "5"
  | 6 => "6" | 7 => "7" | 8 => "8" | 9 => "9" | 10 => "a" | 11 => "b"
  | 12 => "c" | 13 => "d" | 14 => "e" | _ => "f"
  end%char%N.

(** QuoteJSONString, one character at a time. *)
Definition escape_char (c : ascii) : string :=
  if decide (c = dquote) then String backslash (String dquote "")
  else if decide (c = backslash) then String backslash (String backslash "")
  else
    let n := N_of_ascii c in
    if (32 <=? n)%N then String c ""
    else match n with
         | 8 => "\b" | 9 => "\t" | 10 => "\n" | 12 => "\f" | 13 => "\r"
         | _ => "\u00" +:+ String (hex_char (n / 16))
                            (String (hex_char (n mod 16)) "")
         end%N.

Fixpoint escape (s : string) : string :=
  match s with
  | EmptyString => ""
  | String c s' => escape_char c +:+ escape s'
  end.

Definition quote (s : string) : string :=
  String dquote (escape s +:+ String dquote "").

(** The text of a [FileList]: an object with one empty object per index. *)
Fixpoint filelist_members (i : nat) (files : list File) : string :=
  match files with
  | [] => ""
  | _ :: rest =>
      (match i with O => "" | _ => "," end)
      +:+ quote (pretty i) +:+ ":{}" +:+ filelist_members (S i) rest
  end.

(** [JSON.stringify(v)]; [None] is the [undefined] it returns for
    [undefined]. Inside an array [undefined] prints as [null]; inside an
    object a property whose value is [undefined] is left out. A [File] and
    a [FormData] have no own enumerable property and print as empty
    objects. *)
Fixpoint stringify (v : Value) : option string :=
  match v with
  | VUndefined => None
  | VNull => Some "null"
  | VBool true => Some "true"
  | VBool false => Some "false"
  | VNum n => Some (pretty n)
  | VStr s => Some (quote s)
  | VArr items =>
      Some ("[" +:+
        (fix elems (l : list Value) : string :=
           match l with
           | [] => ""
           | x :: l' =>
               default "null" (stringify x)
               +:+ (match l' with [] => "" | _ => "," +:+ elems l' end)
           end) items
        +:+ "]")
  | VObj props =>
      Some ("{" +:+
        (fix members (first : bool) (l : list (string * Value)) : string :=
           match l with
           | [] => ""
           | (k, x) :: l' =>
               match stringify x with
               | None => members first l'
               | Some t =>
                   (if first then "" else ",") +:+ quote k +:+ ":" +:+ t
                   +:+ members false l'
               end
           end) true props
        +:+ "}")
  | VFile _ => Some "{}"
  | VFileList files => Some ("{" +:+ filelist_members 0 files +:+ "}")
  | VFormData _ => Some "{}"
  end.

(** ** Parsing *)

Definition is_ws (c : ascii) : bool :=
  bool_decide (c = " "%char) || bool_decide (c = "009"%char)
  || bool_decide (c = "010"%char) || bool_decide (c = "013"%char).

Fixpoint skip_ws (s : string) : string :=
  match s with
  | EmptyString => ""
  | String c s' => if is_ws c then skip_ws s' else s
  end.

Definition digit_val (c : ascii) : option N :=
  let n := N_of_ascii c in
  if ((48 <=? n) && (n <=? 57))%N then Some (n - 48)%N else None.

Definition hex_val (c : ascii) : option N :=
  let n := N_of_ascii c in
  if ((48 <=? n) && (n <=? 57))%N then Some (n - 48)%N
  else if ((97 <=? n) && (n <=? 102))%N then Some (n - 87)%N
  else if ((65 <=? n) && (n <=? 70))%N then Some (n - 55)%N
  else None.

(** A [\uXXXX] escape; code points above 255 have no byte. *)
Definition hex4 (a b c d : ascii) : option ascii :=
  h1 ← hex_val a; h2 ← hex_val b; h3 ← hex_val c; h4 ← hex_val d;
  let n := (((h1 * 16 + h2) * 16 + h3) * 16 + h4)%N in
  if (n <? 256)%N then Some (ascii_of_N n) else None.

(** The characters of a string literal after its opening quote, up to and
    including the closing quote. *)
Fixpoint parse_chars (s : string) : option (string * string) :=
  match s with
  | EmptyString => None
  | String c rest =>
      if decide (c = dquote) then Some ("", rest)
      else if decide (c = backslash) then
        match rest with
        | EmptyString => None
        | String e rest' =>
            if decide (e = "u"%char) then
              match rest' with
              | String h1 (String h2 (String h3 (String h4 rest''))) =>
                  ch ← hex4 h1 h2 h3 h4;
                  '(str, r) ← parse_chars rest'';
                  Some (String ch str, r)
              | _ => None
              end
            else
              ch ← (if decide (e = dquote) then Some dquote
                    else if decide (e = backslash) then Some backslash
                    else if decide (e = "/"%char) then Some "/"%char
                    else if decide (e = "b"%char) then Some "008"%char
                    else if decide (e = "f"%char) then Some "012"%char
                    else if decide (e = "n"%char) then Some "010"%char
                    else if decide (e = "r"%char) then Some "013"%char
                    else if decide (e = "t"%char) then Some "009"%char
                    else None);
              '(str, r) ← parse_chars rest';
              Some (String ch str, r)
        end
      else if (N_of_ascii c <? 32)%N then None
      else '(str, r) ← parse_chars rest; Some (String c str, r)
  end.

Fixpoint parse_digits (s : string) (acc : N) : N * string :=
  match s with
  | EmptyString => (acc, "")
  | String c rest =>
      match digit_val c with
      | Some d => parse_digits rest (acc * 10 + d)%N
      | None => (acc, s)
      end
  end.

(** An unsigned integer without a leading zero. *)
Definition parse_nat (s : string) : option (N * string) :=
  match s with
  | EmptyString => None
  | String c rest =>
      match digit_val c with
      | None => None
      | Some 0%N =>
          match rest with
          | String c' _ =>
              if digit_val c' is Some _ then None else Some (0%N, rest)
          | EmptyString => Some (0%N, rest)
          end
      | Some d => Some (parse_digits rest d)
      end
  end.

Definition parse_number (s : string) : option (Value * string) :=
  match s with
  | String c rest =>
      if decide (c = "-"%char)
      then '(n, r) ← parse_nat rest; Some (VNum (- Z.of_N n), r)
      else '(n, r) ← parse_nat s; Some (VNum (Z.of_N n), r)
  | EmptyString => None
  end.

Fixpoint expect (lit s : string) : option string :=
  match lit, s with
  | EmptyString, _ => Some s
  | String a lit', String b s' => if decide (a = b) then expect lit' s' else None
  | String _ _, EmptyString => None
  end.

(** Assigning a property: an existing key keeps its place. *)
Fixpoint obj_put (props : list (string * Value)) (k : string) (v : Value)
  : list (string * Value) :=
  match props with
  | [] => [(k, v)]
  | (k', v') :: rest =>
      if decide (k = k') then (k, v) :: rest else (k', v') :: obj_put rest k v
  end.

Definition obj_of_members (ms : list (string * Value)) : list (string * Value) :=
  foldl (λ acc kv, obj_put acc kv.1 kv.2) [] ms.

Fixpoint parse_value (fuel : nat) (s : string) {struct fuel}
  : option (Value * string) :=
  match fuel with
  | O => None
  | S fuel' =>
      match skip_ws s with
      | EmptyString => None
      | String c rest =>
          if decide (c = "n"%char) then r ← expect "ull" rest; Some (VNull, r)
          else if decide (c = "t"%char) then
            r ← expect "rue" rest; Some (VBool true, r)
          else if decide (c = "f"%char) then
            r ← expect "alse" rest; Some (VBool false, r)
          else if decide (c = dquote) then
            '(str, r) ← parse_chars rest; Some (VStr str, r)
          else if decide (c = "["%char) then
            match skip_ws rest with
            | String c' r =>
                if decide (c' = "]"%char) then Some (VArr [], r)
                else '(vs, r') ← parse_elems fuel' rest; Some (VArr vs, r')
            | EmptyString => None
            end
          else if decide (c = "{"%char) then
            match skip_ws rest with
            | String c' r =>
                if decide (c' = "}"%char) then Some (VObj [], r)
                else '(ms, r') ← parse_members fuel' rest;
                     Some (VObj (obj_of_members ms), r')
            | EmptyString => None
            end
          else parse_number (String c rest)
      end
  end
with parse_elems (fuel : nat) (s : string) {struct fuel}
  : option (list Value * string) :=
  match fuel with
  | O => None
  | S fuel' =>
      '(v, r) ← parse_value fuel' s;
      match skip_ws r with
      | String c r' =>
          if decide (c = ","%char) then
            '(vs, r'') ← parse_elems fuel' r'; Some (v :: vs, r'')
          else if decide (c = "]"%char) then Some ([v], r')
          else None
      | EmptyString => None
      end
  end
with parse_members (fuel : nat) (s : string) {struct fuel}
  : option (list (string * Value) * string) :=
  match fuel with
  | O => None
  | S fuel' =>
      match skip_ws s with
      | String q r0 =>
          if decide (q = dquote) then
            '(k, r1) ← parse_chars r0;
            match skip_ws r1 with
            | String c r2 =>
                if decide (c = ":"%char) then
                  '(v, r3) ← parse_value fuel' r2;
                  match skip_ws r3 with
                  | String c' r4 =>
                      if decide (c' = ","%char) then
                        '(ms, r5) ← parse_members fuel' r4;
                        Some ((k, v) :: ms, r5)
                      else if decide (c' = "}"%char) then Some ([(k, v)], r4)
                      else None
                  | EmptyString => None
                  end
                else None
            | EmptyString => None
            end
          else None
      | EmptyString => None
      end
  end.

(** [JSON.parse(s)]; [None] is its SyntaxError. Numbers with a fraction
    or an exponent and characters beyond one byte are outside the model
    and are refused. *)
Definition parse (s : string) : option Value :=
  match parse_value (S (String.length s)) s with
  | Some (v, r) => if skip_ws r is EmptyString then Some v else None
  | None => None
  end.

(** Values that survive a trip through JSON text unchanged. *)
Fixpoint is_json (v : Value) : bool :=
  match v with
  | VNull | VBool _ | VNum _ | VStr _ => true
  | VArr items => forallb is_json items
  | VObj props =>
      bool_decide (NoDup props.*1)
      && (fix all (l : list (string * Value)) : bool :=
            match l with
            | [] => true
            | (_, x) :: l' => is_json x && all l'
            end) props
  | _ => false
  end.

(** ** The text of arrays and objects, and a size that bounds the budget
    of the parser *)

Fixpoint elems_text (l : list Value) : string :=
  match l with
  | [] => ""
  | x :: l' =>
      default "null" (stringify x)
      +:+ (match l' with [] => "" | _ => "," +:+ elems_text l' end)
  end.

Fixpoint members_text (first : bool) (l : list (string * Value)) : string :=
  match l with
  | [] => ""
  | (k, x) :: l' =>
      match stringify x with
      | None => members_text first l'
      | Some t =>
          (if first then "" else ",") +:+ quote k +:+ ":" +:+ t
          +:+ members_text false l'
      end
  end.

Fixpoint size (v : Value) : nat :=
  match v with
  | VArr items =>
      S ((fix go (l : list Value) : nat :=
            match l with [] => 0 | x :: l' => S (size x + go l') end) items)
  | VObj props =>
      S ((fix go (l : list (string * Value)) : nat :=
            match l with [] => 0 | (_, x) :: l' => S (size x + go l') end) props)
  | _ => 1
  end.

Fixpoint elems_size (l : list Value) : nat :=
  match l with [] => 0 | x :: l' => S (size x + elems_size l') end.

Fixpoint members_size (l : list (string * Value)) : nat :=
  match l with [] => 0 | (_, x) :: l' => S (size x + members_size l') end.

Fixpoint all_json (l : list (string * Value)) : bool :=
  match l with [] => true | (_, x) :: l' => is_json x && all_json l' end.

(** What may follow a number: not a digit. *)
Definition delimited (rest : string) : Prop :=
  match rest with
  | EmptyString => True
  | String c _ => digit_val c = None
  end.

(** A value is read back from its text, whatever delimiter follows. *)
Definition roundtrips (v : Value) : Prop :=
  ∀ fuel rest, size v ≤ fuel → delimited rest →
    ∃ text, stringify v = Some text
            ∧ parse_value fuel (text +:+ rest) = Some (v, rest).

End Json.

(* ===================================================================== *)
(** * Part III. The browser collaborators                                 *)
(* ===================================================================== *)

(** The header collection, the local storage, multipart forms, the
    transport and the world a client runs in. *)
Module Web.
Import Js.

(** ** Headers: a map with case-insensitive names

    Names are compared after lowering ASCII letters. [set] normalizes the
    value (it strips the HTTP whitespace at both ends), then validates the
    name and the value and throws a TypeError when either is refused, and
    only then stores the value. Strings are byte strings, so the byte
    string conversion of a name or a value never fails. *)

Definition lower_char (c : ascii) : ascii :=
  let n := N_of_ascii c in
  if ((65 <=? n) && (n <=? 90))%N then ascii_of_N (n + 32) else c.

Fixpoint lower (s : string) : string :=
  match s with
  | EmptyString => ""
  | String c s' => String (lower_char c) (lower s')
  end.

Abbreviation Headers := (gmap string string).

(** HTTP whitespace: line feed, carriage return, tab and space. *)
Definition is_http_whitespace (c : ascii) : bool :=
  bool_decide (c = "010"%char) || bool_decide (c = "013"%char)
  || bool_decide (c = "009"%char) || bool_decide (c = " "%char).

Fixpoint strip_leading (s : string) : string :=
  match s with
  | EmptyString => ""
  | String c s' => if is_http_whitespace c then strip_leading s' else s
  end.

Fixpoint strip_trailing (s : string) : string :=
  match s with
  | EmptyString => ""
  | String c s' =>
      match strip_trailing s' with
      | EmptyString => if is_http_whitespace c then "" else String c ""
      | r => String c r
      end
  end.

(** Normalization of a header value. *)
Definition normalize (value : string) : string :=
  strip_trailing (strip_leading value).

(** A header name is a non-empty token. *)
Definition is_tchar (c : ascii) : bool :=
  let n := N_of_ascii c in
  ((48 <=? n) && (n <=? 57))%N || ((65 <=? n) && (n <=? 90))%N
  || ((97 <=? n) && (n <=? 122))%N
  || existsb (λ x, bool_decide (c = x))
             (String.list_ascii_of_string "!#$%&'*+-.^_`|~").

Fixpoint all_chars (p : ascii → bool) (s : string) : bool :=
  match s with
  | EmptyString => true
  | String c s' => p c && all_chars p s'
  end.

Definition is_header_name (name : string) : bool :=
  negb (bool_decide (name = "")) && all_chars is_tchar name.

(** A normalized value is a header value when it holds no NUL, line feed
    or carriage return (it has no whitespace at its ends already). *)
Definition is_header_value (value : string) : bool :=
  all_chars (λ c, negb (bool_decide (c = "000"%char)
                        || bool_decide (c = "010"%char)
                        || bool_decide (c = "013"%char))) value.

(** The header list operation that stores a value under a name. *)
Definition Headers_put (name value : string) (h : Headers) : Headers :=
  <[lower name := value]> h.

(** [headers.set(name, value)]; [None] is the TypeError. *)
Definition Headers_set (name value : string) (h : Headers) : option Headers :=
  let v := normalize value in
  if is_header_name name && is_header_value v
  then Some (Headers_put name v h)
  else None.
Definition Headers_delete (name : string) (h : Headers) : Headers :=
  delete (lower name) h.
Definition Headers_get (name : string) (h : Headers) : option string :=
  h !! lower name.
Definition Headers_append (name value : string) (h : Headers) : Headers :=
  match h !! lower name with
  | Some old => <[lower name := old +:+ ", " +:+ value]> h
  | None => <[lower name := value]> h
  end.

(** [new Headers(init)], with [init] a sequence of name/value pairs
    ([undefined] is the empty sequence); the pairs are header names and
    normalized header values. *)
Definition Headers_new (init : list (string * string)) : Headers :=
  foldl (λ h kv, Headers_append kv.1 kv.2 h) ∅ init.

(** ** Local storage *)

Abbreviation Storage := (gmap string string).

(** ** Multipart forms *)

(** [form.append(name, value)]. *)
Definition form_entry (v : Value) : FormEntry :=
  match v with
  | VFile f => FEFile f
  | _ => FEString (to_string v)
  end.

Definition FormData_append (name : string) (v : Value) (fd : FormData)
  : FormData := fd ++ [(name, form_entry v)].

(** ** Requests and responses *)

(** A value of a [RequestInit] record: the client's own live header
    collection, or any other value. *)
Inductive InitVal :=
| ILiveHeaders
| IVal (v : Value).

Abbreviation RequestInit := (gmap string InitVal).

Inductive Method := GET | POST | PATCH | DELETE.

Definition method_name (m : Method) : string :=
  match m with
  | GET => "GET" | POST => "POST" | PATCH => "PATCH" | DELETE => "DELETE"
  end.

(** [method === 'PATCH' || method === 'POST']. *)
Definition is_patch_or_post (m : Method) : bool :=
  match m with
  | PATCH | POST => true
  | GET | DELETE => false
  end.

(** What the transport is called with; [req_headers] is the content of the
    client's header collection at that moment. *)
Record Request := mkRequest {
  req_url : string;
  req_init : RequestInit;
  req_headers : Headers
}.

(** A response: its status and what [json()] yields ([None]: it rejects). *)
Record Response := mkResponse {
  status : Z;
  body_json : option Value
}.

Inductive NetResult :=
| NetFail
| NetOk (r : Response).

(** The transport answers a request knowing the requests sent before it. *)
Definition Transport := list Request → Request → NetResult.

(** The argument object of the [fetch] method: the four named properties
    and the remaining ones. *)
Record FetchArgs := mkArgs {
  url : string;
  method : option Method;
  body : Value;
  refresh : option bool;
  rest : RequestInit
}.

(** The [...args] of the destructuring pattern. *)
Definition other_args (a : FetchArgs) : RequestInit :=
  delete "url" (delete "method" (delete "body" (delete "refresh" (rest a)))).

(** The text [JSON.stringify] returns, as a value. *)
Definition JSON_stringify (v : Value) : Value :=
  match Json.stringify v with
  | Some t => VStr t
  | None => VUndefined
  end.

(** The per-call record after
    [if (method === 'PATCH' || method === 'POST')
       args = { ...args, method, body: body instanceof FormData ? body
                                        : JSON.stringify(body ?? {}) }]. *)
Definition call_args (a : FetchArgs) (m : Method) (b : Value) : RequestInit :=
  if is_patch_or_post m then
    <["body" := IVal (if is_FormData b then b
                      else JSON_stringify (nullish_or b (VObj [])))]>
      (<["method" := IVal (VStr (method_name m))]> (other_args a))
  else other_args a.

(** The record the transport is called with:
    [{ method, ...this.options, ...args }]. *)
Definition call_init (options : RequestInit) (m : Method) (args : RequestInit)
  : RequestInit :=
  args ∪ (options ∪ {[ "method" := IVal (VStr (method_name m)) ]}).

(** ** Effects *)

Inductive Event :=
| EvFetch (a : FetchArgs)                (* the [fetch] method is entered *)
| EvHeaderSet (name value : string)       (* [value] is what is stored *)
| EvHeaderDelete (name : string)
| EvStoreSet (key value : string)
| EvStoreRemove (key : string)
| EvRequest (r : Request)                (* the transport is called *)
| EvTokenCall.                           (* the token callable is called *)

Record World := mkWorld {
  headers : Headers;
  storage : Storage;
  trace : list Event
}.

(** A token source: a path, or a callable producing the token payload. *)
Inductive TokenSource :=
| TSPath (path : string)
| TSCall (f : list Event → Completion Value).

(** [if (this.tokenSource)]. *)
Definition configured (ts : option TokenSource) : bool :=
  match ts with
  | None => false
  | Some (TSPath p) => truthy (VStr p)
  | Some (TSCall _) => true
  end.

Definition emit (e : Event) (w : World) : World :=
  mkWorld (headers w) (storage w) (trace w ++ [e]).

(** The world after [this.headers.set(name, value)] has stored [value]:
    what the call does when [value] is a normalized header value, as the
    constant [application/json] is. *)
Definition set_header (name value : string) (w : World) : World :=
  mkWorld (Headers_put name value (headers w)) (storage w)
          (trace w ++ [EvHeaderSet name value]).

(** [this.headers.set(name, value)] for any value; [None] is the
    TypeError, which leaves the world as it was. The event records the
    value that is stored. *)
Definition headers_set (name value : string) (w : World) : option World :=
  let v := normalize value in
  if is_header_name name && is_header_value v
  then Some (set_header name v w)
  else None.

Definition delete_header (name : string) (w : World) : World :=
  mkWorld (Headers_delete name (headers w)) (storage w)
          (trace w ++ [EvHeaderDelete name]).

Definition setItem (key value : string) (w : World) : World :=
  mkWorld (headers w) (<[key := value]> (storage w))
          (trace w ++ [EvStoreSet key value]).

Definition removeItem (key : string) (w : World) : World :=
  mkWorld (headers w) (delete key (storage w))
          (trace w ++ [EvStoreRemove key]).

Definition getItem (key : string) (w : World) : option string :=
  storage w !! key.

Fixpoint requests (t : list Event) : list Request :=
  match t with
  | [] => []
  | EvRequest r :: t' => r :: requests t'
  | _ :: t' => requests t'
  end.

(** The global [fetch(url, init)]. *)
Definition dispatch (net : Transport) (u : string) (init : RequestInit)
    (w : World) : NetResult * World :=
  let r := mkRequest u init (headers w) in
  (net (requests (trace w)) r, emit (EvRequest r) w).

(** [response.json()]. *)
Definition json (res : Response) : Completion Value :=
  match body_json res with
  | Some v => Resolve v
  | None => Reject ExnBody
  end.

Definition defaultOptions : RequestInit :=
  <["credentials" := IVal (VStr "include")]>
    (<["cache" := IVal (VStr "no-cache")]>
       (<["mode" := IVal (VStr "cors")]> ∅)).

(** The outcome of one asynchronous method call: [None] only when the
    recursion budget of the model is exhausted. *)
Abbreviation Outcome := (option (Completion Value * World)).

(** The result of [baseQuery]. *)
Inductive QueryResult :=
| QData (data : Value)
| QError (error : Exn).

End Web.

(* ===================================================================== *)
(** * Part IV. [Fwr] (src/fwr.ts)                                         *)
(* ===================================================================== *)

Module Fwr.
Import Js Web.

Record Client := mkClient {
  baseUrl : string;
  tokenSource : option TokenSource;
  options : RequestInit
}.

(** The [options] argument of the constructor. *)
Record CtorOptions := mkCtorOptions {
  o_headers : option (list (string * string));
  o_options : option RequestInit
}.

(** [constructor(baseUrl, tokenSource?, options?)]: the client and its
    fresh header collection. The stored record is
    [{ headers, ...options?.options } ?? { headers, ...defaultOptions }];
    the left operand is an object literal, hence never nullish. *)
Definition constructor (base : string) (ts : option TokenSource)
    (opts : option CtorOptions) : Client * Headers :=
  let hs := Headers_new (default [] (opts ≫= o_headers)) in
  let supplied : RequestInit :=
    default ∅ (opts ≫= o_options) ∪ {[ "headers" := ILiveHeaders ]} in
  let fallback : RequestInit :=
    defaultOptions ∪ {[ "headers" := ILiveHeaders ]} in
  (mkClient base ts (default fallback (Some supplied)), hs).

(** [error(res)]: always a rejection. *)
Definition error (res : Response) (w : World) : Completion Value * World :=
  match body_json res with
  | None => (Reject ExnBody, w)
  | Some err =>
      match get_member err "message", get_member err "errors" with
      | Some m, Some e =>
          (Reject (ExnValue (VObj [("status", VNum (status res));
                                   ("message", m); ("errors", e)])), w)
      | _, _ => (Reject ExnTypeError, w)
      end
  end.

(** The body-encoding stage of [fetch]: only the header collection
    changes. *)
Definition encode (b : Value) (w : World) : World :=
  if is_FormData b then delete_header "Content-Type" w
  else set_header "Content-Type" "application/json" w.

Section Methods.
Context (net : Transport).

(** [refreshToken(url, method, body)], with the [fetch] method it calls
    back into as a parameter. *)
Definition refreshToken (fetch : FetchArgs → World → Outcome)
    (c : Client) (u : string) (m : Method) (b : Value) (w : World)
  : Outcome :=
  if configured (tokenSource c) then
    let acquired :=
      match tokenSource c with
      | Some (TSPath p) => fetch (mkArgs p (Some GET) VUndefined (Some false) ∅) w
      | Some (TSCall f) => Some (f (trace w), emit EvTokenCall w)
      | None => Some (Reject ExnTypeError, w)
      end in
    match acquired with
    | None => None
    | Some (Reject _, w1) =>
        Some (Reject (ExnValue (VObj [("message", VStr "Failed to get token")])),
              w1)
    | Some (Resolve token, w1) =>
        if truthy token then
          match get_member token "accessToken" with
          | None => Some (Reject ExnTypeError, w1)
          | Some t =>
              match headers_set "Authorization" ("Bearer " +:+ to_string t) w1 with
              | None => Some (Reject ExnTypeError, w1)
              | Some w2 =>
                  let w3 := setItem "accessToken" (to_string t) w2 in
                  fetch (mkArgs u (Some m) b (Some false) ∅) w3
              end
          end
        else fetch (mkArgs u (Some m) b (Some false) ∅) w1
    end
  else
    let w1 := removeItem "accessToken" w in
    Some (Reject (ExnValue (VObj [("message", VStr "Failed to refresh token")])),
          w1).

(** [fetch({ url, method = 'GET', body, refresh = true, ...args })]. *)
Fixpoint fetch (fuel : nat) (c : Client) (a : FetchArgs) (w : World)
  : Outcome :=
  match fuel with
  | O => None
  | S fuel' =>
      let m := default GET (method a) in
      let b := body a in
      let w := encode b (emit (EvFetch a) w) in
      let init := call_init (options c) m (call_args a m b) in
      match dispatch net (baseUrl c +:+ url a) init w with
      | (NetFail, w) => Some (Reject ExnNetwork, w)
      | (NetOk response, w) =>
          if bool_decide (status response = 201%Z)
             || bool_decide (status response = 200%Z)
          then Some (json response, w)
          else if bool_decide (status response = 401%Z) && default true (refresh a)
          then
            if configured (tokenSource c)
            then refreshToken (fetch fuel' c) c (url a) m b w
            else Some (error response w)
          else Some (error response w)
      end
  end.

(** [setAuthHeader(fingerprint?)]: whether it throws (the TypeError of
    [headers.set]), and the world it leaves. *)
Definition setAuthHeader (fingerprint : option string) (w : World)
  : option Exn * World :=
  let fingerprinted :=
    match fingerprint with
    | Some fp => if truthy (VStr fp) then headers_set "Fingerprint" fp w
                 else Some w
    | None => Some w
    end in
  match fingerprinted with
  | None => (Some ExnTypeError, w)
  | Some w =>
      match getItem "accessToken" w with
      | Some accessToken =>
          if truthy (VStr accessToken)
          then match headers_set "Authorization"
                                 ("Bearer " +:+ accessToken) w with
               | Some w' => (None, w')
               | None => (Some ExnTypeError, w)
               end
          else (None, w)
      | None => (None, w)
      end
  end.

(** [deleteAuthHeader()]. *)
Definition deleteAuthHeader (w : World) : World :=
  removeItem "accessToken" (delete_header "Authorization" w).

(** Shorthands. *)
Definition get (fuel : nat) (c : Client) (u : string) :=
  fetch fuel c (mkArgs u None VUndefined None ∅).
Definition post (fuel : nat) (c : Client) (u : string) (b : Value) :=
  fetch fuel c (mkArgs u (Some POST) b None ∅).
Definition patch (fuel : nat) (c : Client) (u : string) (b : Value) :=
  fetch fuel c (mkArgs u (Some PATCH) b None ∅).
Definition delete (fuel : nat) (c : Client) (u : string) :=
  fetch fuel c (mkArgs u (Some DELETE) VUndefined None ∅).

(** [baseQuery(args)]. *)
Definition baseQuery (fuel : nat) (c : Client) (a : FetchArgs) (w : World)
  : option (QueryResult * World) :=
  match fetch fuel c a w with
  | None => None
  | Some (Resolve result, w') => Some (QData result, w')
  | Some (Reject e, w') => Some (QError e, w')
  end.



End Methods.
End Fwr.

(* ===================================================================== *)
(** * Part V. Form-data conversion                                        *)
(* ===================================================================== *)

(** [toFormData(data)]: the method has the same text in both [FetchApi]
    variants. *)
Module Multipart.
Import Js Web.

(** The keys [for (const key in data)] visits with their values; the loop
    over [undefined] or [null] has no iteration. *)
Definition for_in (data : Value) : list (string * Value) :=
  default [] (own_props data).

Definition items_of (v : Value) : list Value :=
  match v with VArr items => items | _ => [] end.
Definition files_of (v : Value) : list File :=
  match v with VFileList files => files | _ => [] end.

(** One iteration of the loop, on [formDataWithFiles] and [jsonData]. *)
Definition toFormData_step (acc : FormData * list (string * Value))
    (kv : string * Value) : FormData * list (string * Value) :=
  let '(formDataWithFiles, jsonData) := acc in
  let '(key, v) := kv in
  if is_File v then (FormData_append key v formDataWithFiles, jsonData)
  else if is_FileList v then
    (foldl (λ fd file, FormData_append key (VFile file) fd)
           formDataWithFiles (files_of v), jsonData)
  else if is_Array v then
    if find_truthy is_File (items_of v)
    then (foldl (λ fd file, FormData_append key file fd)
                formDataWithFiles (items_of v), jsonData)
    else (formDataWithFiles, Json.obj_put jsonData key v)
  else (formDataWithFiles, Json.obj_put jsonData key v).

Definition toFormData (data : Value) : FormData :=
  let '(formDataWithFiles, jsonData) :=
    foldl toFormData_step ([], []) (for_in data) in
  let formData : FormData :=
    FormData_append "serialized-json" (JSON_stringify (VObj jsonData)) [] in
  foldl (λ fd kv, fd ++ [kv]) formData formDataWithFiles.

(** ** The conversion as the specification words it

    A value is a file value when it is a file, a file list, or an array
    that contains a file. The form is the [serialized-json] field, which
    holds the text of the object restricted to its other keys, followed
    by the fields of the file values: one per file, under the key of the
    value, with one field per element for lists and arrays. *)

Definition is_file_value (v : Value) : bool :=
  is_File v || is_FileList v || (is_Array v && existsb is_File (items_of v)).

Definition json_part (props : list (string * Value)) : list (string * Value) :=
  List.filter (λ kv, negb (is_file_value kv.2)) props.

Definition fields_of (kv : string * Value) : FormData :=
  match kv.2 with
  | VFile f => [(kv.1, FEFile f)]
  | VFileList files => (λ f, (kv.1, FEFile f)) <$> files
  | VArr items =>
      if existsb is_File items then (λ el, (kv.1, form_entry el)) <$> items
      else []
  | _ => []
  end.

Definition file_fields (props : list (string * Value)) : FormData :=
  flat_map fields_of props.

(** A plain key-value body: distinct keys, and every value a file value or
    a JSON value. *)
Definition plain_body (props : list (string * Value)) : bool :=
  bool_decide (NoDup props.*1)
  && forallb (λ kv, is_file_value kv.2 || Json.is_json kv.2) props.

End Multipart.

(* ===================================================================== *)
(** * Part VI. [FetchApi], TypeScript variant                             *)
(* ===================================================================== *)

Module FetchApiTs.
Import Js Web.

Record Client := mkClient {
  baseUrl : string;
  tokenSource : option TokenSource;
  options : RequestInit;
  convertToFormdata : bool
}.

(** The [options] argument of the constructor; when the object is given
    its [convertToFormdata] property is present. *)
Record CtorOptions := mkCtorOptions {
  o_headers : option (list (string * string));
  o_options : option RequestInit;
  o_convertToFormdata : bool
}.

Definition constructor (base : string) (ts : option TokenSource)
    (opts : option CtorOptions) : Client * Headers :=
  let hs := Headers_new (default [] (opts ≫= o_headers)) in
  let supplied : RequestInit :=
    default ∅ (opts ≫= o_options) ∪ {[ "headers" := ILiveHeaders ]} in
  let fallback : RequestInit :=
    defaultOptions ∪ {[ "headers" := ILiveHeaders ]} in
  (mkClient base ts (default fallback (Some supplied))
            (match opts with
             | Some o => o_convertToFormdata o
             | None => false
             end), hs).

Definition error := Fwr.error.

Definition toFormData := Multipart.toFormData.

Section Methods.
Context (net : Transport).

(** [refreshToken(url, method, body)]: as in [Fwr]. *)
Definition refreshToken (fetch : FetchArgs → World → Outcome)
    (c : Client) (u : string) (m : Method) (b : Value) (w : World)
  : Outcome :=
  if configured (tokenSource c) then
    let acquired :=
      match tokenSource c with
      | Some (TSPath p) => fetch (mkArgs p (Some GET) VUndefined (Some false) ∅) w
      | Some (TSCall f) => Some (f (trace w), emit EvTokenCall w)
      | None => Some (Reject ExnTypeError, w)
      end in
    match acquired with
    | None => None
    | Some (Reject _, w1) =>
        Some (Reject (ExnValue (VObj [("message", VStr "Failed to get token")])),
              w1)
    | Some (Resolve token, w1) =>
        if truthy token then
          match get_member token "accessToken" with
          | None => Some (Reject ExnTypeError, w1)
          | Some t =>
              match headers_set "Authorization" ("Bearer " +:+ to_string t) w1 with
              | None => Some (Reject ExnTypeError, w1)
              | Some w2 =>
                  let w3 := setItem "accessToken" (to_string t) w2 in
                  fetch (mkArgs u (Some m) b (Some false) ∅) w3
              end
          end
        else fetch (mkArgs u (Some m) b (Some false) ∅) w1
    end
  else
    let w1 := removeItem "accessToken" w in
    Some (Reject (ExnValue (VObj [("message", VStr "Failed to refresh token")])),
          w1).

(** The body-encoding stage of [fetch]: the body to send and the world
    after the header update, or the TypeError of [Object.values]. *)
Definition encode (c : Client) (b : Value) (w : World)
  : option (Value * World) :=
  if convertToFormdata c then
    match Object_values b with
    | None => None
    | Some values =>
        if find_truthy is_File values
        then Some (VFormData (toFormData b), delete_header "Content-Type" w)
        else Some (b, set_header "Content-Type" "application/json" w)
    end
  else if is_FormData b then Some (b, delete_header "Content-Type" w)
  else Some (b, set_header "Content-Type" "application/json" w).

Fixpoint fetch (fuel : nat) (c : Client) (a : FetchArgs) (w : World)
  : Outcome :=
  match fuel with
  | O => None
  | S fuel' =>
      let m := default GET (method a) in
      let w := emit (EvFetch a) w in
      match encode c (body a) w with
      | None => Some (Reject ExnTypeError, w)
      | Some (b, w) =>
          let init := call_init (options c) m (call_args a m b) in
          match dispatch net (baseUrl c +:+ url a) init w with
          | (NetFail, w) => Some (Reject ExnNetwork, w)
          | (NetOk response, w) =>
              if bool_decide (status response = 201%Z)
                 || bool_decide (status response = 200%Z)
              then Some (json response, w)
              else if bool_decide (status response = 401%Z)
                      && default true (refresh a)
              then
                if configured (tokenSource c)
                then refreshToken (fetch fuel' c) c (url a) m b w
                else Some (error response w)
              else Some (error response w)
          end
      end
  end.

Definition get (fuel : nat) (c : Client) (u : string) :=
  fetch fuel c (mkArgs u None VUndefined None ∅).
Definition post (fuel : nat) (c : Client) (u : string) (b : Value) :=
  fetch fuel c (mkArgs u (Some POST) b None ∅).
Definition patch (fuel : nat) (c : Client) (u : string) (b : Value) :=
  fetch fuel c (mkArgs u (Some PATCH) b None ∅).
Definition delete (fuel : nat) (c : Client) (u : string) :=
  fetch fuel c (mkArgs u (Some DELETE) VUndefined None ∅).

(** [setAuthHeader(fingerprint?)]: whether it throws (the TypeError of
    [headers.set]), and the world it leaves. *)
Definition setAuthHeader (fingerprint : option string) (w : World)
  : option Exn * World :=
  let fingerprinted :=
    match fingerprint with
    | Some fp => if truthy (VStr fp) then headers_set "Fingerprint" fp w
                 else Some w
    | None => Some w
    end in
  match fingerprinted with
  | None => (Some ExnTypeError, w)
  | Some w =>
      match getItem "accessToken" w with
      | Some accessToken =>
          if truthy (VStr accessToken)
          then match headers_set "Authorization"
                                 ("Bearer " +:+ accessToken) w with
               | Some w' => (None, w')
               | None => (Some ExnTypeError, w)
               end
          else (None, w)
      | None => (None, w)
      end
  end.

(** [deleteAuthHeader()]. *)
Definition deleteAuthHeader (w : World) : World :=
  removeItem "accessToken" (delete_header "Authorization" w).

(** [baseQuery(args)]. *)
Definition baseQuery (fuel : nat) (c : Client) (a : FetchArgs) (w : World)
  : option (QueryResult * World) :=
  match fetch fuel c a w with
  | None => None
  | Some (Resolve result, w') => Some (QData result, w')
  | Some (Reject e, w') => Some (QError e, w')
  end.

End Methods.
End FetchApiTs.

(* ===================================================================== *)
(** * Part VII. [FetchApi], the class of index.js                         *)
(* ===================================================================== *)

Module FetchApi.
Import Js Web.

Record Client := mkClient {
  baseUrl : string;
  tokenSource : option TokenSource;
  options : RequestInit;
  convertToFormData : bool
}.

(** The [options] argument of the first constructor form; the
    [convertToFormData] property may be missing. *)
Record CtorOptions := mkCtorOptions {
  o_headers : option (list (string * string));
  o_options : option RequestInit;
  o_convertToFormData : option bool
}.

(** The configuration object of the second constructor form. *)
Record Config := mkConfig {
  cfg_baseUrl : option string;
  cfg_headers : option (list (string * string));
  cfg_options : option RequestInit;
  cfg_tokenSource : option TokenSource;
  cfg_convertToFormData : option bool
}.

(** The first argument of the constructor: a string, a configuration
    object, or nothing. *)
Inductive CtorArg :=
| ByUrl (base : string) (ts : option TokenSource) (opts : option CtorOptions)
| ByConfig (cfg : Config)
| ByDefault.

Definition with_headers (o : RequestInit) : RequestInit :=
  o ∪ {[ "headers" := ILiveHeaders ]}.

Definition constructor (arg : CtorArg) : Client * Headers :=
  match arg with
  | ByUrl base ts opts =>
      let hs := Headers_new (default [] (opts ≫= o_headers)) in
      (mkClient base ts
         (match opts ≫= o_options with
          | Some o => with_headers o
          | None => with_headers defaultOptions
          end)
         (default false (opts ≫= o_convertToFormData)), hs)
  | ByConfig cfg =>
      let hs := Headers_new (default [] (cfg_headers cfg)) in
      (mkClient (default "/" (cfg_baseUrl cfg)) (cfg_tokenSource cfg)
         (match cfg_options cfg with
          | Some o => with_headers o
          | None => with_headers defaultOptions
          end)
         (default false (cfg_convertToFormData cfg)), hs)
  | ByDefault =>
      (mkClient "/" None (with_headers defaultOptions) false, Headers_new [])
  end.

(** [error(res)]: the structured part is read from [fields]. *)
Definition error (res : Response) (w : World) : Completion Value * World :=
  match body_json res with
  | None => (Reject ExnBody, w)
  | Some err =>
      match get_member err "message", get_member err "fields" with
      | Some m, Some e =>
          (Reject (ExnValue (VObj [("status", VNum (status res));
                                   ("message", m); ("fields", e)])), w)
      | _, _ => (Reject ExnTypeError, w)
      end
  end.

Definition toFormData := Multipart.toFormData.

Section Methods.
Context (net : Transport).

(** [refreshToken(response, url, method, body)]. *)
Definition refreshToken (fetch : FetchArgs → World → Outcome)
    (c : Client) (response : Response) (u : string) (m : Method) (b : Value)
    (w : World) : Outcome :=
  if configured (tokenSource c) then
    let acquired :=
      match tokenSource c with
      | Some (TSPath p) => fetch (mkArgs p (Some GET) VUndefined (Some false) ∅) w
      | Some (TSCall f) => Some (f (trace w), emit EvTokenCall w)
      | None => Some (Reject ExnTypeError, w)
      end in
    match acquired with
    | None => None
    | Some (Reject _, w1) => Some (error response w1)
    | Some (Resolve token, w1) =>
        if truthy token then
          match get_member token "accessToken" with
          | None => Some (Reject ExnTypeError, w1)
          | Some t =>
              match headers_set "Authorization" ("Bearer " +:+ to_string t) w1 with
              | None => Some (Reject ExnTypeError, w1)
              | Some w2 =>
                  let w3 := setItem "accessToken" (to_string t) w2 in
                  fetch (mkArgs u (Some m) b (Some false) ∅) w3
              end
          end
        else fetch (mkArgs u (Some m) b (Some false) ∅) w1
    end
  else
    let w1 := removeItem "accessToken" w in
    Some (error response w1).

(** The body-encoding stage of [fetch]. *)
Definition encode (c : Client) (b : Value) (w : World)
  : option (Value * World) :=
  if is_FormData b then Some (b, delete_header "Content-Type" w)
  else if truthy b && convertToFormData c then
    match Object_values b with
    | None => None
    | Some values =>
        if find_truthy (λ el, is_File el || is_FileList el) values
        then Some (VFormData (toFormData b), delete_header "Content-Type" w)
        else Some (b, set_header "Content-Type" "application/json" w)
    end
  else Some (b, set_header "Content-Type" "application/json" w).

Fixpoint fetch (fuel : nat) (c : Client) (a : FetchArgs) (w : World)
  : Outcome :=
  match fuel with
  | O => None
  | S fuel' =>
      let m := default GET (method a) in
      let w := emit (EvFetch a) w in
      match encode c (body a) w with
      | None => Some (Reject ExnTypeError, w)
      | Some (b, w) =>
          let init := call_init (options c) m (call_args a m b) in
          match dispatch net (baseUrl c +:+ url a) init w with
          | (NetFail, w) => Some (Reject ExnNetwork, w)
          | (NetOk response, w) =>
              if bool_decide (status response = 201%Z)
                 || bool_decide (status response = 200%Z)
              then Some (json response, w)
              else if bool_decide (status response = 401%Z)
                      && default true (refresh a)
              then refreshToken (fetch fuel' c) c response (url a) m b w
              else Some (error response w)
          end
      end
  end.

Definition get (fuel : nat) (c : Client) (u : string) :=
  fetch fuel c (mkArgs u None VUndefined None ∅).
Definition post (fuel : nat) (c : Client) (u : string) (b : Value) :=
  fetch fuel c (mkArgs u (Some POST) b None ∅).
Definition patch (fuel : nat) (c : Client) (u : string) (b : Value) :=
  fetch fuel c (mkArgs u (Some PATCH) b None ∅).
Definition delete (fuel : nat) (c : Client) (u : string) :=
  fetch fuel c (mkArgs u (Some DELETE) VUndefined None ∅).

(** [setAuthHeader(fingerprint?)]: whether it throws (the TypeError of
    [headers.set]), and the world it leaves. *)
Definition setAuthHeader (fingerprint : option string) (w : World)
  : option Exn * World :=
  let fingerprinted :=
    match fingerprint with
    | Some fp => if truthy (VStr fp) then headers_set "Fingerprint" fp w
                 else Some w
    | None => Some w
    end in
  match fingerprinted with
  | None => (Some ExnTypeError, w)
  | Some w =>
      match getItem "accessToken" w with
      | Some accessToken =>
          if truthy (VStr accessToken)
          then match headers_set "Authorization"
                                 ("Bearer " +:+ accessToken) w with
               | Some w' => (None, w')
               | None => (Some ExnTypeError, w)
               end
          else (None, w)
      | None => (None, w)
      end
  end.

(** [deleteAuthHeader()]. *)
Definition deleteAuthHeader (w : World) : World :=
  removeItem "accessToken" (delete_header "Authorization" w).

(** [baseQuery(args)]. *)
Definition baseQuery (fuel : nat) (c : Client) (a : FetchArgs) (w : World)
  : option (QueryResult * World) :=
  match fetch fuel c a w with
  | None => None
  | Some (Resolve result, w') => Some (QData result, w')
  | Some (Reject e, w') => Some (QError e, w')
  end.

End Methods.
End FetchApi.

(* ===================================================================== *)
(** * Part VIII. Observations on worlds and traces                        *)
(* ===================================================================== *)

Module Obs.
Import Js Web.

(** The argument objects the [fetch] method was entered with, in order. *)
Fixpoint fetch_entries (t : list Event) : list FetchArgs :=
  match t with
  | [] => []
  | EvFetch a :: t' => a :: fetch_entries t'
  | _ :: t' => fetch_entries t'
  end.

Fixpoint token_calls (t : list Event) : nat :=
  match t with
  | [] => 0
  | EvTokenCall :: t' => S (token_calls t')
  | _ :: t' => token_calls t'
  end.

(** The call [refreshToken] re-issues the original request with. *)
Definition retry_of (a : FetchArgs) : FetchArgs :=
  mkArgs (url a) (Some (default GET (method a))) (body a) (Some false) ∅.

(** The call [refreshToken] fetches the token with. *)
Definition token_fetch (p : string) : FetchArgs :=
  mkArgs p (Some GET) VUndefined (Some false) ∅.

(** The fetch entries of the token acquisition. *)
Definition acquisition_entries (ts : option TokenSource) : list FetchArgs :=
  match ts with
  | Some (TSPath p) => [token_fetch p]
  | _ => []
  end.


Definition failed_to_get_token : Exn :=
  ExnValue (VObj [("message", VStr "Failed to get token")]).

Definition is_reject {A} (r : Completion A) : bool :=
  match r with Reject _ => true | Resolve _ => false end.

Definition ok_status (res : Response) : bool :=
  bool_decide (status res = 201%Z) || bool_decide (status res = 200%Z).

(** The request [Fwr.fetch] sends for a call entered in world [w]. *)
Definition Fwr_request (c : Fwr.Client) (a : FetchArgs) (w : World) : Request :=
  let m := default GET (method a) in
  mkRequest (Fwr.baseUrl c +:+ url a)
            (call_init (Fwr.options c) m (call_args a m (body a)))
            (headers (Fwr.encode (body a) w)).

(** The world right after [Fwr.fetch] has called the transport. *)
Definition Fwr_sent (c : Fwr.Client) (a : FetchArgs) (w : World) : World :=
  emit (EvRequest (Fwr_request c a w))
       (Fwr.encode (body a) (emit (EvFetch a) w)).

(** The header event of the body-encoding stage of [Fwr.fetch]. *)
Definition Fwr_encode_event (b : Value) : Event :=
  if is_FormData b then EvHeaderDelete "Content-Type"
  else EvHeaderSet "Content-Type" "application/json".

(** What [Fwr.fetch] settles with when it does not enter the refresh
    sequence: the parsed body on 200 and 201, the error path otherwise. *)
Definition Fwr_reply (net : Transport) (c : Fwr.Client) (a : FetchArgs)
    (w : World) : Completion Value :=
  match net (requests (trace w)) (Fwr_request c a w) with
  | NetFail => Reject ExnNetwork
  | NetOk response =>
      if ok_status response then json response
      else (Fwr.error response (Fwr_sent c a w)).1
  end.

(** The token acquisition of [Fwr.refreshToken]. *)
Definition Fwr_acquire (net : Transport) (c : Fwr.Client) (w : World)
  : Completion Value * World :=
  match Fwr.tokenSource c with
  | Some (TSPath p) =>
      (Fwr_reply net c (token_fetch p) w, Fwr_sent c (token_fetch p) w)
  | Some (TSCall f) => (f (trace w), emit EvTokenCall w)
  | None => (Reject ExnTypeError, w)
  end.

(** The text of the token of a payload: [token.accessToken] as the
    template literal and [setItem] convert it. *)
Definition token_text (tok : Value) : string :=
  to_string (default VUndefined (get_member tok "accessToken")).

(** The value the header collection stores for the token text [t]. *)
Definition bearer (t : string) : string := normalize ("Bearer " +:+ t).

(** The header collection refuses the value of the payload: [headers.set]
    throws its TypeError. *)
Definition token_refused (tok : Value) : bool :=
  truthy tok && negb (is_header_value (bearer (token_text tok))).

(** The two writes of a refresh whose payload is not refused; a falsy
    payload writes nothing. *)
Definition store_token (tok : Value) (w : World) : World :=
  if truthy tok then
    let t := token_text tok in
    setItem "accessToken" t (set_header "Authorization" (bearer t) w)
  else w.

Definition Fwr_acquire_events (c : Fwr.Client) (w : World) : list Event :=
  match Fwr.tokenSource c with
  | Some (TSPath p) =>
      [EvFetch (token_fetch p); Fwr_encode_event VUndefined;
       EvRequest (Fwr_request c (token_fetch p) w)]
  | Some (TSCall _) => [EvTokenCall]
  | None => []
  end.

Definition store_token_events (tok : Value) : list Event :=
  if truthy tok then
    let t := token_text tok in
    [EvHeaderSet "Authorization" (bearer t); EvStoreSet "accessToken" t]
  else [].

(** Whether a call of [Fwr.fetch] enters the refresh sequence. *)
Definition Fwr_refreshes (net : Transport) (c : Fwr.Client) (a : FetchArgs)
    (w : World) : bool :=
  match net (requests (trace w)) (Fwr_request c a w) with
  | NetFail => false
  | NetOk response =>
      negb (ok_status response) && bool_decide (status response = 401%Z)
      && default true (refresh a) && configured (Fwr.tokenSource c)
  end.

(** [Fwr.fetch] without a recursion budget: at most one refresh
    sequence, whose requests do not refresh; a refused token value ends
    it with the TypeError of [headers.set]. *)
Definition Fwr_settle (net : Transport) (c : Fwr.Client) (a : FetchArgs)
    (w : World) : Completion Value * World :=
  if Fwr_refreshes net c a w then
    match Fwr_acquire net c (Fwr_sent c a w) with
    | (Reject _, w1) => (Reject failed_to_get_token, w1)
    | (Resolve tok, w1) =>
        if token_refused tok then (Reject ExnTypeError, w1)
        else
          let w2 := store_token tok w1 in
          (Fwr_reply net c (retry_of a) w2, Fwr_sent c (retry_of a) w2)
    end
  else (Fwr_reply net c a w, Fwr_sent c a w).

(** The request [FetchApi.fetch] sends once the body-encoding stage has
    produced the body [b] and the world [w1]. *)
Definition FetchApi_request (c : FetchApi.Client) (a : FetchArgs) (b : Value)
    (w1 : World) : Request :=
  let m := default GET (method a) in
  mkRequest (FetchApi.baseUrl c +:+ url a)
            (call_init (FetchApi.options c) m (call_args a m b))
            (headers w1).

(** The world after [fetch] was entered with a body that takes the JSON
    path. *)
Definition json_entry (a : FetchArgs) (w : World) : World :=
  set_header "Content-Type" "application/json" (emit (EvFetch a) w).

(** The world right after [FetchApi.fetch] has called the transport. *)
Definition FetchApi_sent (c : FetchApi.Client) (a : FetchArgs) (b : Value)
    (w1 : World) : World :=
  emit (EvRequest (FetchApi_request c a b w1)) w1.

(** ** The authorization header and the persisted token *)

Definition auth_header (w : World) : option string :=
  Headers_get "Authorization" (headers w).

Definition token (w : World) : option string := getItem "accessToken" w.

(** The header is the value the header collection stores for the
    persisted token, and absent when no token is persisted. *)
Definition consistent (w : World) : Prop :=
  auth_header w = bearer <$> token w.

(** The events that write the header or the persisted token. *)
Definition is_auth_write (e : Event) : bool :=
  match e with
  | EvHeaderSet n _ | EvHeaderDelete n => bool_decide (lower n = "authorization")
  | EvStoreSet k _ | EvStoreRemove k => bool_decide (k = "accessToken")
  | _ => false
  end.

Definition auth_writes (t : list Event) : list Event :=
  List.filter is_auth_write t.



(** The last character of a string. *)
Fixpoint last_char (s : string) : option ascii :=
  match s with
  | EmptyString => None
  | String c EmptyString => Some c
  | String _ s' => last_char s'
  end.

(** The string is not empty and does not end in HTTP whitespace. *)
Definition ends_plain (s : string) : bool :=
  match last_char s with
  | Some c => negb (is_http_whitespace c)
  | None => false
  end.

(** ** [FetchApi.fetch] (index.js) without a recursion budget *)

(** A call of [FetchApi.fetch] that does not enter the refresh sequence:
    the body-encoding stage, one request, and the parsed body on 200 and
    201 or the error path otherwise. *)
Definition FetchApi_once (net : Transport) (c : FetchApi.Client)
    (a : FetchArgs) (w : World) : Completion Value * World :=
  let w0 := emit (EvFetch a) w in
  match FetchApi.encode c (body a) w0 with
  | None => (Reject ExnTypeError, w0)
  | Some (b, w1) =>
      let w2 := FetchApi_sent c a b w1 in
      match net (requests (trace w1)) (FetchApi_request c a b w1) with
      | NetFail => (Reject ExnNetwork, w2)
      | NetOk response =>
          if ok_status response then (json response, w2)
          else FetchApi.error response w2
      end
  end.

(** The token acquisition of [FetchApi.refreshToken]. *)
Definition FetchApi_acquire (net : Transport) (c : FetchApi.Client)
    (w : World) : Completion Value * World :=
  match FetchApi.tokenSource c with
  | Some (TSPath p) => FetchApi_once net c (token_fetch p) w
  | Some (TSCall f) => (f (trace w), emit EvTokenCall w)
  | None => (Reject ExnTypeError, w)
  end.

(** [FetchApi.refreshToken], its two calls of [fetch] being calls that do
    not refresh. *)
Definition FetchApi_refresh (net : Transport) (c : FetchApi.Client)
    (response : Response) (u : string) (m : Method) (b : Value) (w : World)
  : Completion Value * World :=
  if configured (FetchApi.tokenSource c) then
    match FetchApi_acquire net c w with
    | (Reject _, w1) => FetchApi.error response w1
    | (Resolve tok, w1) =>
        if token_refused tok then (Reject ExnTypeError, w1)
        else FetchApi_once net c (mkArgs u (Some m) b (Some false) ∅)
                           (store_token tok w1)
    end
  else FetchApi.error response (removeItem "accessToken" w).

(** [FetchApi.fetch] without a recursion budget. *)
Definition FetchApi_settle (net : Transport) (c : FetchApi.Client)
    (a : FetchArgs) (w : World) : Completion Value * World :=
  let w0 := emit (EvFetch a) w in
  match FetchApi.encode c (body a) w0 with
  | None => (Reject ExnTypeError, w0)
  | Some (b, w1) =>
      let w2 := FetchApi_sent c a b w1 in
      match net (requests (trace w1)) (FetchApi_request c a b w1) with
      | NetFail => (Reject ExnNetwork, w2)
      | NetOk response =>
          if ok_status response then (json response, w2)
          else if bool_decide (status response = 401%Z)
                  && default true (refresh a)
          then FetchApi_refresh net c response (url a)
                                (default GET (method a)) b w2
          else FetchApi.error response w2
      end
  end.

(** The request the TypeScript [FetchApi.fetch] sends once the
    body-encoding stage has produced the body [b] and the world [w1]. *)
Definition FetchApiTs_request (c : FetchApiTs.Client) (a : FetchArgs)
    (b : Value) (w1 : World) : Request :=
  let m := default GET (method a) in
  mkRequest (FetchApiTs.baseUrl c +:+ url a)
            (call_init (FetchApiTs.options c) m (call_args a m b))
            (headers w1).

(** The [Fwr] client with the fields of a client of the TypeScript
    [FetchApi]. *)
Definition as_Fwr (c : FetchApiTs.Client) : Fwr.Client :=
  Fwr.mkClient (FetchApiTs.baseUrl c) (FetchApiTs.tokenSource c)
               (FetchApiTs.options c).

(** The record thrown by the error path for a response whose body is the
    object with the properties [props]; [key] is [errors] in [Fwr] and
    [fields] in the class of index.js. *)
Definition error_record (key : string) (res : Response)
    (props : list (string * Value)) : Exn :=
  ExnValue (VObj [("status", VNum (status res));
                  ("message", default VUndefined (assoc "message" props));
                  (key, default VUndefined (assoc key props))]).

(** The test of the file detection of index.js on one value. *)
Definition is_upload (el : Value) : bool := is_File el || is_FileList el.

(** A string that is present and not empty: what [s && ...] and [if (s)]
    let through. *)
Definition nonempty (s : option string) : option string :=
  match s with
  | Some x => if truthy (VStr x) then Some x else None
  | None => None
  end.

(** The header collection accepts the value, when there is one to set. *)
Definition accepts (value : option string) : bool :=
  match value with
  | Some v => is_header_value (normalize v)
  | None => true
  end.

(** The header after [headers.set] was called with the value, when there
    is one to set. *)
Definition header_after (old value : option string) : option string :=
  match value with
  | Some v => Some (normalize v)
  | None => old
  end.

(** The urls a call can send requests to: its own and the token path. *)
Definition allowed_urls (base : string) (ts : option TokenSource)
    (a : FetchArgs) : list string :=
  (base +:+ url a) ::
  match ts with
  | Some (TSPath p) => [base +:+ p]
  | _ => []
  end.

End Obs.

(* ===================================================================== *)
(** * Part IX. Concrete scenarios                                         *)
(* ===================================================================== *)

Module Scenario.
Import Js Web.

(** A scripted transport: the n-th call gets the n-th answer. *)
Definition scripted (answers : list NetResult) : Transport :=
  λ h _, default NetFail (answers !! length h).

Definition unauthorized : NetResult :=
  NetOk (mkResponse 401 (Some (VObj [("message", VStr "Unauthorized")]))).
Definition server_error : NetResult :=
  NetOk (mkResponse 500 (Some (VObj [("message", VStr "Internal error")]))).
Definition token_abc : Value := VObj [("accessToken", VStr "abc")].
Definition no_items : Value := VObj [("items", VArr [])].
Definition ok (v : Value) : NetResult := NetOk (mkResponse 200 (Some v)).

Definition base : string := "https://api.example.com".

(** A world with an empty header collection, a given store and no past. *)
Definition fresh (st : Storage) : World := mkWorld ∅ st [].

Definition get_items : FetchArgs := mkArgs "/items" None VUndefined None ∅.

(** [new Fwr('https://api.example.com', '/refresh')]. *)
Definition fwr_client : Fwr.Client :=
  (Fwr.constructor base (Some (TSPath "/refresh")) None).1.


(** The first answer is 401 and the token request fails. *)
Definition refresh_fails : Transport := scripted [unauthorized; server_error].

(** [new FetchApi('https://api.example.com', '/refresh')]. *)
Definition api_client : FetchApi.Client :=
  (FetchApi.constructor
     (FetchApi.ByUrl Scenario.base (Some (TSPath "/refresh")) None)).1.

(** [new FetchApi('https://api.example.com')]: no token source. *)
Definition api_plain : FetchApi.Client :=
  (FetchApi.constructor (FetchApi.ByUrl base None None)).1.

(** The call [fetch({ url: '/items', refresh: false })]. *)
Definition get_items_norefresh : FetchArgs :=
  mkArgs "/items" None VUndefined (Some false) ∅.

(** The script of the refresh scenario. *)
Definition refresh_succeeds : Transport :=
  scripted [unauthorized; ok token_abc; ok no_items].

(** [new Fwr(base, undefined, { options: { body: 'x' } })]. *)
Definition fwr_with_body : Fwr.Client :=
  (Fwr.constructor base None
     (Some (Fwr.mkCtorOptions None (Some {[ "body" := IVal (VStr "x") ]})))).1.

(** [fetch({ url: '/items', method: 'DELETE', body: { a: 1 } })]. *)
Definition delete_a1 : FetchArgs :=
  mkArgs "/items" (Some DELETE) (VObj [("a", VNum 1)]) None ∅.

(** [post('/items', { a: 1 })]. *)
Definition post_a1 : FetchArgs :=
  mkArgs "/items" (Some POST) (VObj [("a", VNum 1)]) None ∅.

(** [new FetchApi(base, undefined, { convertToFormdata: true })], the
    TypeScript variant. *)
Definition ts_converting : FetchApiTs.Client :=
  (FetchApiTs.constructor base None
     (Some (FetchApiTs.mkCtorOptions None None true))).1.

(** A binary file. *)
Definition photo : File := mkFile "photo.png" "PNG".

(** [new FetchApi(base, undefined, { convertToFormData: true })], the
    class of index.js. *)
Definition api_converting : FetchApi.Client :=
  (FetchApi.constructor
     (FetchApi.ByUrl base None
        (Some (FetchApi.mkCtorOptions None None (Some true))))).1.

(** [post('/upload', form)] with [form] a multipart form holding the
    photo. *)
Definition upload_form : FetchArgs :=
  mkArgs "/upload" (Some POST) (VFormData [("file", FEFile photo)]) None ∅.

(** [post('/upload', { photos: [photo] })]. *)
Definition upload_photos : FetchArgs :=
  mkArgs "/upload" (Some POST) (VObj [("photos", VArr [VFile photo])]) None ∅.

(** A session whose token is persisted while the header collection is
    still empty, as at application start. *)
Definition stored_abc : World := fresh {[ "accessToken" := "abc" ]}.

(** A token payload whose token holds a line feed. *)
Definition token_two_lines : Value :=
  VObj [("accessToken", VStr (String "a" (String "010" (String "b" ""))))].

(** [new Fwr(base, async () => ({ accessToken: 'a\nb' }))]. *)
Definition fwr_two_lines : Fwr.Client :=
  (Fwr.constructor base (Some (TSCall (λ _, Resolve token_two_lines))) None).1.

(** A session whose persisted token ends in a space. *)
Definition stored_padded : World := fresh {[ "accessToken" := "abc " ]}.





(** [new FetchApi(base, '/refresh')], the TypeScript variant. *)
Definition ts_client : FetchApiTs.Client :=
  (FetchApiTs.constructor base (Some (TSPath "/refresh")) None).1.

(** [new FetchApi(base, '/refresh', { convertToFormdata: true })], the
    TypeScript variant. *)
Definition ts_uploading : FetchApiTs.Client :=
  (FetchApiTs.constructor base (Some (TSPath "/refresh"))
     (Some (FetchApiTs.mkCtorOptions None None true))).1.

End Scenario.

(* ===================================================================== *)
(** * Part X. Basic facts                                                 *)
(* ===================================================================== *)

Import Js Web Obs.

Lemma requests_app t1 t2 : requests (t1 ++ t2) = requests t1 ++ requests t2.
Proof.
  induction t1 as [|e t1 IH]; [done|].
  destruct e; simpl; by rewrite ?IH.
Qed.

Lemma fetch_entries_app t1 t2 :
  fetch_entries (t1 ++ t2) = fetch_entries t1 ++ fetch_entries t2.
Proof.
  induction t1 as [|e t1 IH]; [done|].
  destruct e; simpl; by rewrite ?IH.
Qed.

Lemma token_calls_app t1 t2 :
  token_calls (t1 ++ t2) = token_calls t1 + token_calls t2.
Proof.
  induction t1 as [|e t1 IH]; [done|].
  destruct e; simpl; by rewrite ?IH.
Qed.

Lemma truthy_get_member v name : truthy v = true → is_Some (get_member v name).
Proof. destruct v; simpl; try done; eauto. Qed.

Lemma error_is_reject res w : is_reject (Fwr.error res w).1 = true.
Proof.
  unfold Fwr.error. destruct (body_json res) as [err|]; [|done].
  destruct (get_member err "message"), (get_member err "errors"); done.
Qed.

Lemma error_world res w : (Fwr.error res w).2 = w.
Proof.
  unfold Fwr.error. destruct (body_json res) as [err|]; [|done].
  destruct (get_member err "message"), (get_member err "errors"); done.
Qed.

(** ** [Fwr.fetch], one level at a time *)

Lemma Fwr_encode_requests b w :
  requests (trace (Fwr.encode b w)) = requests (trace w).
Proof.
  unfold Fwr.encode. destruct (is_FormData b); simpl;
    rewrite requests_app; simpl; by rewrite app_nil_r.
Qed.

Lemma Fwr_encode_emit_headers b e w :
  headers (Fwr.encode b (emit e w)) = headers (Fwr.encode b w).
Proof. unfold Fwr.encode. by destruct (is_FormData b). Qed.

Lemma Fwr_fetch_S net n c a w :
  Fwr.fetch net (S n) c a w =
  match net (requests (trace w)) (Fwr_request c a w) with
  | NetFail => Some (Reject ExnNetwork, Fwr_sent c a w)
  | NetOk response =>
      if ok_status response then Some (json response, Fwr_sent c a w)
      else if bool_decide (status response = 401%Z) && default true (refresh a)
      then
        if configured (Fwr.tokenSource c)
        then Fwr.refreshToken (Fwr.fetch net n c) c (url a)
               (default GET (method a)) (body a) (Fwr_sent c a w)
        else Some (Fwr.error response (Fwr_sent c a w))
      else Some (Fwr.error response (Fwr_sent c a w))
  end.
Proof.
  cbn [Fwr.fetch]. unfold dispatch, Fwr_sent, Fwr_request, ok_status.
  rewrite Fwr_encode_requests, Fwr_encode_emit_headers.
  cbn [trace emit]. rewrite requests_app. cbn [requests]. rewrite app_nil_r.
  by destruct (net _ _).
Qed.

Lemma Fwr_sent_trace c a w :
  trace (Fwr_sent c a w) =
  trace w ++ [EvFetch a; Fwr_encode_event (body a); EvRequest (Fwr_request c a w)].
Proof.
  unfold Fwr_sent, Fwr.encode, Fwr_encode_event.
  destruct (is_FormData (body a)); cbn [trace emit delete_header set_header];
    by rewrite <- !app_assoc.
Qed.

Lemma Fwr_sent_storage c a w : storage (Fwr_sent c a w) = storage w.
Proof. unfold Fwr_sent, Fwr.encode. by destruct (is_FormData (body a)). Qed.

Lemma Fwr_fetch_norefresh net n c a w :
  refresh a = Some false →
  Fwr.fetch net (S n) c a w = Some (Fwr_reply net c a w, Fwr_sent c a w).
Proof.
  intros Hr. rewrite Fwr_fetch_S. unfold Fwr_reply. rewrite Hr.
  destruct (net _ _) as [|response]; [done|].
  destruct (ok_status response); [done|].
  rewrite andb_false_r. f_equal.
  rewrite (surjective_pairing (Fwr.error response (Fwr_sent c a w))) at 1.
  by rewrite error_world.
Qed.

Lemma headers_set_authorization v w :
  headers_set "Authorization" v w
  = if is_header_value (normalize v)
    then Some (set_header "Authorization" (normalize v) w)
    else None.
Proof. reflexivity. Qed.

Lemma headers_set_content_type w :
  headers_set "Content-Type" "application/json" w
  = Some (set_header "Content-Type" "application/json" w).
Proof. reflexivity. Qed.

Lemma headers_set_world name v w :
  headers <$> headers_set name v w = Headers_set name v (headers w).
Proof.
  unfold headers_set, Headers_set.
  by destruct (is_header_name name && is_header_value (normalize v)).
Qed.

Lemma Fwr_refreshToken_S net n c u m b w :
  configured (Fwr.tokenSource c) = true →
  Fwr.refreshToken (Fwr.fetch net (S n) c) c u m b w =
  match Fwr_acquire net c w with
  | (Reject _, w1) => Some (Reject failed_to_get_token, w1)
  | (Resolve tok, w1) =>
      if token_refused tok then Some (Reject ExnTypeError, w1)
      else
        let a' := mkArgs u (Some m) b (Some false) ∅ in
        let w2 := store_token tok w1 in
        Some (Fwr_reply net c a' w2, Fwr_sent c a' w2)
  end.
Proof.
  intros Hc.
  unfold Fwr.refreshToken, Fwr_acquire, store_token, token_fetch,
    token_refused, token_text, bearer.
  rewrite Hc.
  destruct (Fwr.tokenSource c) as [[p|f]|]; [| |by simpl in Hc].
  - rewrite Fwr_fetch_norefresh by done.
    destruct (Fwr_reply net c _ w) as [tok|e]; [|done].
    destruct (truthy tok) eqn:Ht; cbn [andb].
    + destruct (truthy_get_member tok "accessToken" Ht) as [t ->].
      cbn [default from_option id]. rewrite headers_set_authorization.
      destruct (is_header_value _); cbn [negb]; [|done].
      by rewrite Fwr_fetch_norefresh.
    + by rewrite Fwr_fetch_norefresh.
  - destruct (f (trace w)) as [tok|e]; [|done].
    destruct (truthy tok) eqn:Ht; cbn [andb].
    + destruct (truthy_get_member tok "accessToken" Ht) as [t ->].
      cbn [default from_option id]. rewrite headers_set_authorization.
      destruct (is_header_value _); cbn [negb]; [|done].
      by rewrite Fwr_fetch_norefresh.
    + by rewrite Fwr_fetch_norefresh.
Qed.

Lemma Fwr_acquire_trace net c w :
  trace (Fwr_acquire net c w).2 = trace w ++ Fwr_acquire_events c w.
Proof.
  unfold Fwr_acquire, Fwr_acquire_events.
  destruct (Fwr.tokenSource c) as [[p|f]|]; cbn [snd].
  - apply Fwr_sent_trace.
  - done.
  - by rewrite app_nil_r.
Qed.

Lemma store_token_trace tok w :
  trace (store_token tok w) = trace w ++ store_token_events tok.
Proof.
  unfold store_token, store_token_events. destruct (truthy tok).
  - cbn [trace setItem set_header]. by rewrite <- app_assoc.
  - by rewrite app_nil_r.
Qed.

Lemma not_ok_401 resp : status resp = 401%Z → ok_status resp = false.
Proof. intros H. unfold ok_status. by rewrite H. Qed.

Lemma call_events_obs a b r :
  fetch_entries [EvFetch a; Fwr_encode_event b; EvRequest r] = [a]
  ∧ requests [EvFetch a; Fwr_encode_event b; EvRequest r] = [r]
  ∧ token_calls [EvFetch a; Fwr_encode_event b; EvRequest r] = 0.
Proof. unfold Fwr_encode_event. by destruct (is_FormData b). Qed.


Lemma store_token_events_obs tok :
  fetch_entries (store_token_events tok) = []
  ∧ requests (store_token_events tok) = []
  ∧ token_calls (store_token_events tok) = 0.
Proof. unfold store_token_events. by destruct (truthy tok). Qed.

(* ===================================================================== *)
(** * Part XI. The refresh sequence of [Fwr]                              *)
(* ===================================================================== *)


(** A token with a line feed inside: [headers.set] throws, the call
    rejects with the TypeError after its single request, and neither the
    header nor the store is written. *)
Lemma refused_token_example :
  ∃ w',
    Fwr.fetch (Scenario.scripted [Scenario.unauthorized;
                                  Scenario.ok Scenario.no_items]) 2
      Scenario.fwr_two_lines Scenario.get_items (Scenario.fresh ∅)
    = Some (Reject ExnTypeError, w')
    ∧ length (requests (trace w')) = 1
    ∧ fetch_entries (trace w') = [Scenario.get_items]
    ∧ auth_header w' = None
    ∧ token w' = None.
Proof. eexists. split; [vm_compute; reflexivity|]. repeat split. Qed.



(* ===================================================================== *)
(** * Part XII. [Fwr.fetch] settles, and what it does to the token        *)
(* ===================================================================== *)

Lemma Fwr_fetch_settle net n c a w :
  Fwr.fetch net (S (S n)) c a w = Some (Fwr_settle net c a w).
Proof.
  rewrite Fwr_fetch_S. unfold Fwr_settle, Fwr_refreshes, Fwr_reply.
  destruct (net _ _) as [|response]; [done|].
  destruct (ok_status response); [done|]. cbn [negb andb].
  destruct (bool_decide (status response = 401%Z)); cbn [andb].
  2:{ by rewrite (surjective_pairing (Fwr.error _ _)), error_world. }
  destruct (default true (refresh a)); cbn [andb].
  2:{ by rewrite (surjective_pairing (Fwr.error _ _)), error_world. }
  destruct (configured (Fwr.tokenSource c)) eqn:Hc.
  2:{ by rewrite (surjective_pairing (Fwr.error _ _)), error_world. }
  rewrite Fwr_refreshToken_S by done.
  destruct (Fwr_acquire net c (Fwr_sent c a w)) as [[tok|e] w1]; [|done].
  by destruct (token_refused tok).
Qed.

Lemma auth_writes_app t1 t2 :
  auth_writes (t1 ++ t2) = auth_writes t1 ++ auth_writes t2.
Proof. apply List.filter_app. Qed.


Lemma Fwr_sent_auth c a w :
  auth_header (Fwr_sent c a w) = auth_header w
  ∧ token (Fwr_sent c a w) = token w.
Proof.
  unfold Fwr_sent, Fwr.encode, auth_header, token, getItem, Headers_get.
  destruct (is_FormData (body a)); cbn [headers storage emit delete_header set_header];
    unfold Headers_delete, Headers_put; split; try done.
  - by rewrite lookup_delete_ne.
  - by rewrite lookup_insert_ne.
Qed.














(** A persisted token that ends in a space: the header holds
    [Bearer abc], the store keeps [abc ] with its space. *)
Lemma padded_token_example :
  auth_header (Fwr.setAuthHeader None Scenario.stored_padded).2
  = Some "Bearer abc"
  ∧ token (Fwr.setAuthHeader None Scenario.stored_padded).2 = Some "abc "
  ∧ consistent (Fwr.setAuthHeader None Scenario.stored_padded).2
  ∧ ends_plain "abc " = false.
Proof. repeat split; vm_compute; reflexivity. Qed.

(* ===================================================================== *)
(** * Part XIII. [FetchApi] (index.js): 401 with and without a token source *)
(* ===================================================================== *)

Lemma FetchApi_error_is_reject res w :
  is_reject (FetchApi.error res w).1 = true ∧ (FetchApi.error res w).2 = w.
Proof.
  unfold FetchApi.error. destruct (body_json res) as [err|]; [|done].
  destruct (get_member err "message"), (get_member err "fields"); done.
Qed.

Lemma FetchApi_encode_world c b w b' w1 :
  FetchApi.encode c b w = Some (b', w1) →
  storage w1 = storage w ∧ requests (trace w1) = requests (trace w).
Proof.
  unfold FetchApi.encode. intros H.
  assert (Hd : ∀ x, storage (delete_header x w) = storage w
               ∧ requests (trace (delete_header x w)) = requests (trace w)).
  { intros x. cbn. by rewrite requests_app, app_nil_r. }
  assert (Hs : ∀ x y, storage (set_header x y w) = storage w
               ∧ requests (trace (set_header x y w)) = requests (trace w)).
  { intros x y. cbn. by rewrite requests_app, app_nil_r. }
  repeat case_match; simplify_eq; auto.
Qed.

Lemma FetchApi_fetch_S net n c a w b w1 :
  FetchApi.encode c (body a) (emit (EvFetch a) w) = Some (b, w1) →
  FetchApi.fetch net (S n) c a w =
  let r := FetchApi_request c a b w1 in
  let w2 := emit (EvRequest r) w1 in
  match net (requests (trace w)) r with
  | NetFail => Some (Reject ExnNetwork, w2)
  | NetOk response =>
      if ok_status response then Some (json response, w2)
      else if bool_decide (status response = 401%Z) && default true (refresh a)
      then FetchApi.refreshToken (FetchApi.fetch net n c) c response (url a)
             (default GET (method a)) b w2
      else Some (FetchApi.error response w2)
  end.
Proof.
  intros He. cbn [FetchApi.fetch]. rewrite He.
  destruct (FetchApi_encode_world _ _ _ _ _ He) as [_ Hreq].
  unfold dispatch, FetchApi_request, ok_status. rewrite Hreq.
  cbn [trace emit]. rewrite requests_app. cbn [requests]. rewrite app_nil_r.
  by destruct (net _ _).
Qed.

(** C5 (amended). When no token source is configured and the response has
    status 401, the call settles with a rejection, in [Fwr] and in
    [FetchApi]; it never resolves and needs no recursion. In [FetchApi],
    when the refresh flag is not disabled the persisted token is removed
    from the store before the rejection; when the call disables the
    refresh flag the store is left as it was. *)
Theorem C5_unauthorized_without_token_source net n :
  (∀ c a w resp,
     configured (Fwr.tokenSource c) = false →
     net (requests (trace w)) (Fwr_request c a w) = NetOk resp →
     status resp = 401%Z →
     ∃ e w', Fwr.fetch net (S n) c a w = Some (Reject e, w'))
  ∧ (∀ c a w b w1 resp,
       configured (FetchApi.tokenSource c) = false →
       FetchApi.encode c (body a) (emit (EvFetch a) w) = Some (b, w1) →
       net (requests (trace w)) (FetchApi_request c a b w1) = NetOk resp →
       status resp = 401%Z →
       ∃ e w',
         FetchApi.fetch net (S n) c a w = Some (Reject e, w')
         ∧ (default true (refresh a) = true →
            storage w' = delete "accessToken" (storage w)
            ∧ token w' = None
            ∧ trace w' = trace w1 ++ [EvRequest (FetchApi_request c a b w1);
                                      EvStoreRemove "accessToken"])
         ∧ (refresh a = Some false → storage w' = storage w)).
Proof.
  split.
  - intros c a w resp Hc Hnet Hst.
    rewrite Fwr_fetch_S, Hnet, (not_ok_401 _ Hst), Hc.
    pose proof (error_is_reject resp (Fwr_sent c a w)) as Hrej.
    destruct (Fwr.error resp (Fwr_sent c a w)) as [[v|e] w'] eqn:He; [done|].
    exists e, w'. by repeat case_match.
  - intros c a w b w1 resp Hc Henc Hnet Hst.
    rewrite (FetchApi_fetch_S _ _ _ _ _ _ _ Henc). cbn zeta.
    rewrite Hnet, (not_ok_401 _ Hst), Hst.
    rewrite bool_decide_eq_true_2 by done. cbn [andb].
    destruct (FetchApi_encode_world _ _ _ _ _ Henc) as [Hsto _].
    set (r := FetchApi_request c a b w1).
    destruct (default true (refresh a)) eqn:Hr.
    + unfold FetchApi.refreshToken. rewrite Hc.
      destruct (FetchApi_error_is_reject resp
                  (removeItem "accessToken" (emit (EvRequest r) w1))) as [Hrej Hw].
      destruct (FetchApi.error resp _) as [[v|e] w'] eqn:He; [done|].
      cbn [snd] in Hw. subst w'. eexists e, _. split; [reflexivity|].
      split.
      * intros _. cbn [storage removeItem emit trace]. rewrite Hsto.
        split; [done|]. split.
        { unfold token, getItem. cbn [storage removeItem emit]. by rewrite lookup_delete_eq. }
        by rewrite <- app_assoc.
      * intros Hf. rewrite Hf in Hr. done.
    + destruct (FetchApi_error_is_reject resp (emit (EvRequest r) w1)) as [Hrej Hw].
      destruct (FetchApi.error resp _) as [[v|e] w'] eqn:He; [done|].
      cbn [snd] in Hw. subst w'. eexists e, _. split; [reflexivity|].
      split; [done|]. intros _. exact Hsto.
Qed.

Lemma C5_witness :
  ∃ e w',
    FetchApi.fetch (Scenario.scripted [Scenario.unauthorized]) 1
      Scenario.api_plain Scenario.get_items Scenario.stored_abc
    = Some (Reject e, w')
    ∧ token w' = None.
Proof.
  destruct (C5_unauthorized_without_token_source
              (Scenario.scripted [Scenario.unauthorized]) 0) as [_ Hapi].
  destruct (Hapi Scenario.api_plain Scenario.get_items Scenario.stored_abc
              VUndefined (json_entry Scenario.get_items Scenario.stored_abc)
              (mkResponse 401 (Some (VObj [("message", VStr "Unauthorized")])))
              eq_refl eq_refl eq_refl eq_refl)
    as (e & w' & Hrun & Hclear & _).
  exists e, w'. split; [exact Hrun|]. apply (Hclear eq_refl).
Defined.

(** C5 as stated fails: with the refresh flag disabled the 401 goes
    straight to the error path and the persisted token stays. *)
Lemma C5_counterexample :
  configured (FetchApi.tokenSource Scenario.api_plain) = false
  ∧ Scenario.scripted [Scenario.unauthorized] [] 
      (FetchApi_request Scenario.api_plain Scenario.get_items_norefresh VUndefined
         (json_entry Scenario.get_items_norefresh Scenario.stored_abc))
    = Scenario.unauthorized
  ∧ ∃ e w',
      FetchApi.fetch (Scenario.scripted [Scenario.unauthorized]) 1
        Scenario.api_plain Scenario.get_items_norefresh Scenario.stored_abc
      = Some (Reject e, w')
      ∧ token w' = Some "abc".
Proof.
  split; [reflexivity|]. split; [reflexivity|].
  eexists _, _. split; vm_compute; reflexivity.
Qed.










(* ===================================================================== *)
(** * Part XIV. Body encoding and construction                            *)
(* ===================================================================== *)

Lemma stringify_defined v : v ≠ VUndefined → is_Some (Json.stringify v).
Proof. destruct v as [| |[]| | | | | | |]; simpl; eauto; done. Qed.

Lemma nullish_or_object b :
  nullish_or b (VObj []) ≠ VUndefined
  ∧ (b = VUndefined → nullish_or b (VObj []) = VObj []).
Proof. split; [by destruct b|by intros ->]. Qed.

Lemma Fwr_settle_prefix net c a w :
  ∃ t, trace (Fwr_settle net c a w).2 = trace (Fwr_sent c a w) ++ t.
Proof.
  unfold Fwr_settle. destruct (Fwr_refreshes net c a w).
  - pose proof (Fwr_acquire_trace net c (Fwr_sent c a w)) as Htr.
    destruct (Fwr_acquire net c (Fwr_sent c a w)) as [[tok|e] w1];
      cbn [fst snd] in *.
    + destruct (token_refused tok); cbn [fst snd].
      { eexists. by rewrite Htr. }
      eexists. rewrite Fwr_sent_trace, store_token_trace, Htr.
      rewrite <- !app_assoc. reflexivity.
    + eexists. by rewrite Htr.
  - exists []. by rewrite app_nil_r.
Qed.

Lemma other_args_body a : other_args a !! "body" = None.
Proof.
  unfold other_args.
  rewrite lookup_delete_ne, lookup_delete_ne by done. apply lookup_delete_eq.
Qed.

(** C6 (amended). In [Fwr], for every body that is not a multipart form
    the call sets [Content-Type: application/json] in the header collection
    before the transport is called. For POST and PATCH the dispatched body
    is the JSON text of the body, and the text of the empty object when
    the body is absent. For GET and DELETE the request path attaches no
    body of its own: the body of the call is dropped and the dispatched
    record carries a body only when the options stored at construction
    supply one. *)
Theorem C6_json_body_encoding net n c a w :
  is_FormData (body a) = false →
  (∃ res w' t,
     Fwr.fetch net (S (S n)) c a w = Some (res, w')
     ∧ trace w' = trace w ++ [EvFetch a;
                              EvHeaderSet "Content-Type" "application/json";
                              EvRequest (Fwr_request c a w)] ++ t)
  ∧ Headers_get "Content-Type" (req_headers (Fwr_request c a w))
    = Some "application/json"
  ∧ (is_patch_or_post (default GET (method a)) = true →
     ∃ text, Json.stringify (nullish_or (body a) (VObj [])) = Some text
       ∧ req_init (Fwr_request c a w) !! "body" = Some (IVal (VStr text))
       ∧ (body a = VUndefined → text = "{}"))
  ∧ (is_patch_or_post (default GET (method a)) = false →
     req_init (Fwr_request c a w) !! "body" = Fwr.options c !! "body").
Proof.
  intros Hfd. split; [|split; [|split]].
  - rewrite Fwr_fetch_settle.
    destruct (Fwr_settle_prefix net c a w) as [t Ht].
    destruct (Fwr_settle net c a w) as [res w']. cbn [snd] in Ht.
    exists res, w', t. split; [done|].
    rewrite Ht, Fwr_sent_trace. unfold Fwr_encode_event. rewrite Hfd.
    by rewrite <- app_assoc.
  - unfold Fwr_request, Fwr.encode, Headers_get. rewrite Hfd.
    cbn [req_headers headers set_header]. unfold Headers_put.
    by rewrite lookup_insert_eq.
  - intros Hm. destruct (nullish_or_object (body a)) as [Hne Hun].
    destruct (stringify_defined _ Hne) as [text Htext].
    exists text. split; [done|]. split.
    + unfold Fwr_request, call_init, call_args, JSON_stringify.
      cbn [req_init]. rewrite Hm, Hfd, Htext.
      apply lookup_union_Some_l, lookup_insert_eq.
    + intros Hb. rewrite (Hun Hb) in Htext. by injection Htext as <-.
  - intros Hm. unfold Fwr_request, call_init, call_args. cbn [req_init].
    rewrite Hm. rewrite lookup_union_r by apply other_args_body.
    rewrite lookup_union, lookup_singleton_ne by done.
    by destruct (Fwr.options c !! "body").
Qed.

Lemma C6_witness :
  ∃ text,
    Json.stringify (VObj [("a", VNum 1)]) = Some text
    ∧ req_init (Fwr_request Scenario.fwr_client Scenario.post_a1
                  (Scenario.fresh ∅)) !! "body" = Some (IVal (VStr text))
    ∧ text = "{" +:+ Json.quote "a" +:+ ":1}".
Proof.
  destruct (C6_json_body_encoding (Scenario.scripted []) 0 Scenario.fwr_client
              Scenario.post_a1 (Scenario.fresh ∅) eq_refl)
    as (_ & _ & Hpost & _).
  destruct (Hpost eq_refl) as (text & Htext & Hbody & _).
  exists text. split; [exact Htext|]. split; [exact Hbody|].
  vm_compute in Htext. injection Htext as <-. reflexivity.
Defined.

(** C6 as stated fails: a client whose stored options hold a body sends
    that body with a DELETE. *)
Lemma C6_counterexample :
  is_FormData (body Scenario.delete_a1) = false
  ∧ Json.is_json (body Scenario.delete_a1) = true
  ∧ req_init (Fwr_request Scenario.fwr_with_body Scenario.delete_a1
                (Scenario.fresh ∅)) !! "body" = Some (IVal (VStr "x"))
  ∧ ∃ res w',
      Fwr.fetch (Scenario.scripted [Scenario.ok Scenario.no_items]) 2
        Scenario.fwr_with_body Scenario.delete_a1 (Scenario.fresh ∅)
      = Some (res, w')
      ∧ requests (trace w')
        = [Fwr_request Scenario.fwr_with_body Scenario.delete_a1
             (Scenario.fresh ∅)].
Proof.
  split; [reflexivity|]. split; [reflexivity|].
  split; [vm_compute; reflexivity|].
  eexists _, _. split; vm_compute; reflexivity.
Qed.

(** C4: the code of [Fwr] contradicts the claim. Built without fetch
    options, the stored record of [Fwr] holds the header collection only:
    the default policy after [??] is never reached, so [credentials],
    [cache] and [mode] are missing. [FetchApi] (index.js) stores the header
    collection merged with the default policy, and both merge the caller's
    options when they are supplied. *)
Theorem C4_fwr_constructor_drops_defaults base ts hs :
  Fwr.options (Fwr.constructor base ts None).1 = {[ "headers" := ILiveHeaders ]}
  ∧ Fwr.options (Fwr.constructor base ts
                   (Some (Fwr.mkCtorOptions hs None))).1
    = {[ "headers" := ILiveHeaders ]}
  ∧ Fwr.options (Fwr.constructor base ts None).1 !! "credentials" = None
  ∧ Fwr.options (Fwr.constructor base ts None).1
    ≠ defaultOptions ∪ {[ "headers" := ILiveHeaders ]}
  ∧ FetchApi.options (FetchApi.constructor (FetchApi.ByUrl base ts None)).1
    = defaultOptions ∪ {[ "headers" := ILiveHeaders ]}
  ∧ (∀ o, Fwr.options (Fwr.constructor base ts
                         (Some (Fwr.mkCtorOptions hs (Some o)))).1
          = o ∪ {[ "headers" := ILiveHeaders ]})
  ∧ (∀ o cv, FetchApi.options
               (FetchApi.constructor
                  (FetchApi.ByUrl base ts
                     (Some (FetchApi.mkCtorOptions hs (Some o) cv)))).1
             = o ∪ {[ "headers" := ILiveHeaders ]}).
Proof.
  assert (He : (∅ : RequestInit) ∪ {[ "headers" := ILiveHeaders ]}
               = {[ "headers" := ILiveHeaders ]}) by apply (left_id _ _).
  repeat split; done.
Qed.

(** C7: the TypeScript [FetchApi] contradicts the claim. For a body that is
    already a multipart form the class of index.js leaves the body as it
    is and deletes [Content-Type] whatever the conversion flag says; the
    TypeScript variant does so only with the flag off, and with the flag
    on it sets [Content-Type: application/json]. *)
Theorem C7_form_body_content_type base ts opts fd w :
  (∀ flag,
     FetchApi.encode (FetchApi.mkClient base ts opts flag) (VFormData fd) w
     = Some (VFormData fd, delete_header "Content-Type" w))
  ∧ Headers_get "Content-Type" (headers (delete_header "Content-Type" w)) = None
  ∧ FetchApiTs.encode (FetchApiTs.mkClient base ts opts false) (VFormData fd) w
    = Some (VFormData fd, delete_header "Content-Type" w)
  ∧ FetchApiTs.encode (FetchApiTs.mkClient base ts opts true) (VFormData fd) w
    = Some (VFormData fd, set_header "Content-Type" "application/json" w)
  ∧ Headers_get "Content-Type"
      (headers (set_header "Content-Type" "application/json" w))
    = Some "application/json"
  ∧ (∃ res w' r,
       FetchApiTs.fetch (Scenario.scripted [Scenario.ok Scenario.no_items]) 1
         Scenario.ts_converting Scenario.upload_form (Scenario.fresh ∅)
       = Some (res, w')
       ∧ requests (trace w') = [r]
       ∧ req_init r !! "body" = Some (IVal (body Scenario.upload_form))
       ∧ Headers_get "Content-Type" (req_headers r) = Some "application/json")
  ∧ (∃ res w' r,
       FetchApi.fetch (Scenario.scripted [Scenario.ok Scenario.no_items]) 1
         Scenario.api_converting Scenario.upload_form (Scenario.fresh ∅)
       = Some (res, w')
       ∧ requests (trace w') = [r]
       ∧ req_init r !! "body" = Some (IVal (body Scenario.upload_form))
       ∧ Headers_get "Content-Type" (req_headers r) = None).
Proof.
  split; [done|]. split.
  { unfold Headers_get. cbn [headers delete_header]. apply lookup_delete_eq. }
  split; [done|]. split; [done|]. split.
  { unfold Headers_get. cbn [headers set_header]. apply lookup_insert_eq. }
  split; eexists _, _, _; (split; [vm_compute; reflexivity|]);
    repeat split; vm_compute; reflexivity.
Qed.

(** C8: the detection in [fetch] contradicts the claim. With conversion
    enabled, a body whose only file sits inside an array takes the JSON
    path in both variants, and so does a file list in the TypeScript
    variant; a single file (both variants) and a file list (index.js) are
    converted. *)
Theorem C8_file_detection base ts opts k f more files w :
  let in_array := VObj [(k, VArr (VFile f :: more))] in
  let in_list := VObj [(k, VFileList files)] in
  let single := VObj [(k, VFile f)] in
  let json_path b := Some (b, set_header "Content-Type" "application/json" w) in
  let form_path b :=
    Some (VFormData (Multipart.toFormData b), delete_header "Content-Type" w) in
  FetchApi.encode (FetchApi.mkClient base ts opts true) in_array w
  = json_path in_array
  ∧ FetchApiTs.encode (FetchApiTs.mkClient base ts opts true) in_array w
    = json_path in_array
  ∧ FetchApiTs.encode (FetchApiTs.mkClient base ts opts true) in_list w
    = json_path in_list
  ∧ FetchApi.encode (FetchApi.mkClient base ts opts true) in_list w
    = form_path in_list
  ∧ FetchApi.encode (FetchApi.mkClient base ts opts true) single w
    = form_path single
  ∧ FetchApiTs.encode (FetchApiTs.mkClient base ts opts true) single w
    = form_path single
  ∧ (∃ res w' r,
       FetchApi.fetch (Scenario.scripted [Scenario.ok Scenario.no_items]) 1
         Scenario.api_converting Scenario.upload_photos (Scenario.fresh ∅)
       = Some (res, w')
       ∧ requests (trace w') = [r]
       ∧ req_init r !! "body"
         = Some (IVal (VStr ("{" +:+ Json.quote "photos" +:+ ":[{}]}")))
       ∧ Headers_get "Content-Type" (req_headers r) = Some "application/json").
Proof.
  repeat (split; [reflexivity|]).
  eexists _, _, _. split; [vm_compute; reflexivity|].
  repeat split; vm_compute; reflexivity.
Qed.

(** C10. In the TypeScript [FetchApi] with [convertToFormdata] enabled, a
    call without a body is rejected with the TypeError of
    [Object.values(undefined)] right after [fetch] is entered: the
    transport is not called. This holds for [get] and [delete]. *)
Theorem C10_absent_body_type_error net n c a w :
  FetchApiTs.convertToFormdata c = true →
  body a = VUndefined →
  FetchApiTs.fetch net (S n) c a w
  = Some (Reject ExnTypeError, emit (EvFetch a) w)
  ∧ requests (trace (emit (EvFetch a) w)) = requests (trace w)
  ∧ (∀ u, FetchApiTs.get net (S n) c u w
          = Some (Reject ExnTypeError,
                  emit (EvFetch (mkArgs u None VUndefined None ∅)) w))
  ∧ (∀ u, FetchApiTs.delete net (S n) c u w
          = Some (Reject ExnTypeError,
                  emit (EvFetch (mkArgs u (Some DELETE) VUndefined None ∅)) w)).
Proof.
  intros Hc Hb.
  assert (H : ∀ a', body a' = VUndefined →
            FetchApiTs.fetch net (S n) c a' w
            = Some (Reject ExnTypeError, emit (EvFetch a') w)).
  { intros a' Hb'. cbn [FetchApiTs.fetch]. unfold FetchApiTs.encode.
    by rewrite Hc, Hb'. }
  split; [by apply H|]. split.
  - cbn [trace emit]. rewrite requests_app. cbn. by rewrite app_nil_r.
  - split; intros u; by apply H.
Qed.

Lemma C10_witness :
  FetchApiTs.get (Scenario.scripted []) 1 Scenario.ts_converting "/items"
    (Scenario.fresh ∅)
  = Some (Reject ExnTypeError,
          emit (EvFetch Scenario.get_items) (Scenario.fresh ∅)).
Proof.
  destruct (C10_absent_body_type_error (Scenario.scripted []) 0
              Scenario.ts_converting Scenario.get_items (Scenario.fresh ∅)
              eq_refl eq_refl) as (_ & _ & Hget & _).
  exact (Hget "/items").
Defined.

(* ===================================================================== *)
(** * Part XV. JSON text is read back                                     *)
(* ===================================================================== *)

Import Json Multipart.

Lemma append_nil (b : string) : "" +:+ b = b.
Proof. reflexivity. Qed.

Lemma append_cons (c : ascii) (a b : string) :
  String c a +:+ b = String c (a +:+ b).
Proof. reflexivity. Qed.

Lemma append_assoc (a b c : string) : (a +:+ b) +:+ c = a +:+ b +:+ c.
Proof.
  induction a as [|x a IH]; [done|]. rewrite !append_cons. by f_equal.
Qed.

Lemma length_append (a b : string) :
  String.length (a +:+ b) = String.length a + String.length b.
Proof.
  induction a as [|x a IH]; [done|]. rewrite append_cons. cbn [String.length].
  by rewrite IH.
Qed.

Lemma Value_nested_ind (P : Value → Prop) :
  P VUndefined → P VNull → (∀ b, P (VBool b)) → (∀ n, P (VNum n)) →
  (∀ s, P (VStr s)) →
  (∀ items, Forall P items → P (VArr items)) →
  (∀ props, Forall (λ kv, P kv.2) props → P (VObj props)) →
  (∀ f, P (VFile f)) → (∀ files, P (VFileList files)) →
  (∀ fd, P (VFormData fd)) →
  ∀ v, P v.
Proof.
  intros HU HN HB HZ HS HA HO HF HL HD.
  fix IH 1. intros [| |b|n|s|items|props|f|files|fd].
  - exact HU.
  - exact HN.
  - apply HB.
  - apply HZ.
  - apply HS.
  - apply HA. revert items. fix IHl 1. intros [|x l].
    + constructor.
    + constructor; [apply IH|apply IHl].
  - apply HO. revert props. fix IHl 1. intros [|[k x] l].
    + constructor.
    + constructor; [apply IH|apply IHl].
  - apply HF.
  - apply HL.
  - apply HD.
Qed.

Lemma stringify_arr items :
  stringify (VArr items) = Some ("[" +:+ elems_text items +:+ "]").
Proof. reflexivity. Qed.

Lemma stringify_obj props :
  stringify (VObj props) = Some ("{" +:+ members_text true props +:+ "}").
Proof. reflexivity. Qed.

Lemma is_json_arr items : is_json (VArr items) = forallb is_json items.
Proof. reflexivity. Qed.

Lemma is_json_obj props :
  is_json (VObj props) = bool_decide (NoDup props.*1) && all_json props.
Proof. reflexivity. Qed.

Lemma size_arr items : size (VArr items) = S (elems_size items).
Proof. reflexivity. Qed.

Lemma size_obj props : size (VObj props) = S (members_size props).
Proof. reflexivity. Qed.

(** ** String literals *)

Lemma parse_chars_escape_char c tail :
  parse_chars (escape_char c +:+ tail)
  = '(str, r) ← parse_chars tail; Some (String c str, r).
Proof.
  destruct c as [[] [] [] [] [] [] [] []]; reflexivity.
Qed.

Lemma parse_chars_escape s rest :
  parse_chars (escape s +:+ String dquote rest) = Some (s, rest).
Proof.
  induction s as [|c s IH]; [reflexivity|].
  cbn [escape]. rewrite append_assoc, parse_chars_escape_char, IH.
  reflexivity.
Qed.

Lemma quote_append s rest :
  quote s +:+ rest = String dquote (escape s +:+ String dquote rest).
Proof.
  unfold quote. rewrite append_cons, append_assoc. reflexivity.
Qed.

(** ** Numbers *)

Lemma digit_val_char d : (d < 10)%N → digit_val (pretty_N_char d) = Some d.
Proof.
  intros H. replace d with (N.of_nat (N.to_nat d)) by lia.
  assert (Hk : N.to_nat d < 10) by lia. revert Hk.
  generalize (N.to_nat d). intros k Hk.
  do 10 (destruct k as [|k]; [reflexivity|]). lia.
Qed.

Lemma pretty_N_go_append x s r :
  pretty_N_go x s +:+ r = pretty_N_go x (s +:+ r).
Proof.
  revert s. induction (N.lt_wf_0 x) as [x _ IH]. intros s.
  destruct (decide (x = 0)%N) as [->|Hx]; [by rewrite !pretty_N_go_0|].
  rewrite (pretty_N_go_step x s), (pretty_N_go_step x (s +:+ r)) by lia.
  rewrite IH; [reflexivity|]. apply N.div_lt; lia.
Qed.

Lemma parse_digits_delimited rest acc :
  delimited rest → parse_digits rest acc = (acc, rest).
Proof.
  destruct rest as [|c rest]; [done|]. cbn [delimited parse_digits].
  by intros ->.
Qed.

Lemma pretty_N_go_first x s :
  (0 < x)%N →
  ∃ d tl, pretty_N_go x s = String (pretty_N_char d) tl
          ∧ (0 < d < 10)%N
          ∧ parse_digits tl d = parse_digits s x.
Proof.
  revert s. induction (N.lt_wf_0 x) as [x _ IH]. intros s Hx.
  rewrite pretty_N_go_step by done.
  destruct (decide (x < 10)%N) as [Hlt|Hge].
  - rewrite N.div_small, pretty_N_go_0, N.mod_small by done.
    exists x, s. split; [done|]. split; [lia|done].
  - destruct (IH (x `div` 10)%N) with (s := String (pretty_N_char (x `mod` 10)) s)
      as (d & tl & Heq & Hd & Hp).
    + apply N.div_lt; lia.
    + apply N.div_str_pos. lia.
    + exists d, tl. split; [done|]. split; [done|]. rewrite Hp.
      cbn [parse_digits]. rewrite digit_val_char by (apply N.mod_lt; lia).
      f_equal. rewrite (N.div_mod x 10) at 3 by lia. lia.
Qed.

Lemma parse_value_number f c s :
  digit_val c ≠ None ∨ c = "-"%char →
  parse_value (S f) (String c s) = parse_number (String c s).
Proof.
  destruct c as [[] [] [] [] [] [] [] []]; intros [H|H];
    first [reflexivity | by exfalso | discriminate H].
Qed.

Lemma parse_nat_zero rest : delimited rest → parse_nat (String "0" rest) = Some (0%N, rest).
Proof.
  destruct rest as [|c rest]; [done|]. cbn [delimited]. intros H.
  cbn [parse_nat]. change (digit_val "0") with (Some 0%N). cbn match.
  by rewrite H.
Qed.

Lemma parse_nat_pretty x rest :
  (0 < x)%N → delimited rest →
  ∃ c tl, pretty_N_go x "" +:+ rest = String c tl
          ∧ digit_val c ≠ None ∧ c ≠ "-"%char
          ∧ parse_nat (String c tl) = Some (x, rest).
Proof.
  intros Hx Hr. rewrite pretty_N_go_append, append_nil.
  destruct (pretty_N_go_first x rest Hx) as (d & tl & -> & Hd & Hp).
  exists (pretty_N_char d), tl. split; [done|].
  pose proof (digit_val_char d (proj2 Hd)) as Hdv.
  split; [by rewrite Hdv|]. split.
  { intros Hc. rewrite Hc in Hdv. discriminate Hdv. }
  cbn [parse_nat]. rewrite Hdv.
  destruct d as [|p]; [lia|]. rewrite Hp.
  by rewrite parse_digits_delimited.
Qed.

Lemma parse_value_num f n rest :
  delimited rest →
  parse_value (S f) (pretty n +:+ rest) = Some (VNum n, rest).
Proof.
  intros Hr. destruct n as [|p|p].
  - change (pretty 0%Z) with "0". rewrite append_cons, append_nil.
    rewrite parse_value_number by (left; by vm_compute).
    unfold parse_number. rewrite decide_False by done.
    by rewrite parse_nat_zero.
  - change (pretty (Z.pos p)) with (pretty_N_go (N.pos p) "").
    destruct (parse_nat_pretty (N.pos p) rest) as (c & tl & -> & Hd & Hm & Hp);
      [lia|done|].
    rewrite parse_value_number by (by left).
    unfold parse_number. rewrite decide_False by done. by rewrite Hp.
  - change (pretty (Z.neg p)) with ("-" +:+ pretty_N_go (N.pos p) "").
    rewrite !append_cons, !append_nil.
    rewrite parse_value_number by (by right).
    destruct (parse_nat_pretty (N.pos p) rest) as (c & tl & -> & Hd & Hm & Hp);
      [lia|done|].
    unfold parse_number. rewrite decide_True by done. by rewrite Hp.
Qed.

(** ** Values *)

Lemma append_nil_r (a : string) : a +:+ "" = a.
Proof. induction a as [|x a IH]; [done|]. rewrite append_cons. by f_equal. Qed.

Lemma skip_ws_head c s : is_ws c = false → skip_ws (String c s) = String c s.
Proof. intros H. cbn [skip_ws]. by rewrite H. Qed.

Lemma digit_not_delimiter c :
  digit_val c ≠ None ∨ c = "-"%char →
  is_ws c = false ∧ c ≠ "]"%char ∧ c ≠ "}"%char.
Proof.
  destruct c as [[] [] [] [] [] [] [] []]; intros [H|H];
    first [by exfalso | discriminate H | done].
Qed.

Lemma pretty_head (n : Z) :
  ∃ c s, pretty n = String c s ∧ (digit_val c ≠ None ∨ c = "-"%char).
Proof.
  destruct n as [|p|p].
  - exists "0"%char, "". split; [done|]. left. by vm_compute.
  - destruct (parse_nat_pretty (N.pos p) "") as (c & tl & Heq & Hd & _);
      [lia|done|].
    rewrite append_nil_r in Heq. exists c, tl. split; [exact Heq|by left].
  - exists "-"%char, (pretty_N_go (N.pos p) ""). split; [done|by right].
Qed.

Lemma json_text_head v :
  is_json v = true →
  ∃ c s, stringify v = Some (String c s)
         ∧ is_ws c = false ∧ c ≠ "]"%char ∧ c ≠ "}"%char.
Proof.
  destruct v as [| |[]|n|s|items|props|f|files|fd]; try done; intros _.
  1-3,5-7: by eexists _, _.
  destruct (pretty_head n) as (c & s & Heq & Hc).
  exists c, s. cbn [stringify]. rewrite Heq. split; [done|].
  by apply digit_not_delimiter.
Qed.

Lemma parse_value_dquote f s :
  parse_value (S f) (String dquote s)
  = '(str, r) ← parse_chars s; Some (VStr str, r).
Proof. reflexivity. Qed.

Lemma parse_value_bracket f s :
  parse_value (S f) (String "[" s)
  = match skip_ws s with
    | String c' r =>
        if decide (c' = "]"%char) then Some (VArr [], r)
        else '(vs, r') ← parse_elems f s; Some (VArr vs, r')
    | EmptyString => None
    end.
Proof. reflexivity. Qed.

Lemma parse_value_brace f s :
  parse_value (S f) (String "{" s)
  = match skip_ws s with
    | String c' r =>
        if decide (c' = "}"%char) then Some (VObj [], r)
        else '(ms, r') ← parse_members f s;
             Some (VObj (obj_of_members ms), r')
    | EmptyString => None
    end.
Proof. reflexivity. Qed.

Lemma parse_elems_S f s :
  parse_elems (S f) s
  = '(v, r) ← parse_value f s;
    match skip_ws r with
    | String c r' =>
        if decide (c = ","%char) then
          '(vs, r'') ← parse_elems f r'; Some (v :: vs, r'')
        else if decide (c = "]"%char) then Some ([v], r')
        else None
    | EmptyString => None
    end.
Proof. reflexivity. Qed.

Lemma elems_text_one x : elems_text [x] = default "null" (stringify x).
Proof. cbn [elems_text]. apply append_nil_r. Qed.

Lemma elems_text_more x y l :
  elems_text (x :: y :: l)
  = default "null" (stringify x) +:+ String "," (elems_text (y :: l)).
Proof. reflexivity. Qed.

Lemma parse_elems_text items :
  Forall (λ x, is_json x = true → roundtrips x) items →
  forallb is_json items = true →
  items ≠ [] →
  ∀ f rest, elems_size items ≤ f →
    parse_elems f (elems_text items +:+ String "]" rest) = Some (items, rest).
Proof.
  induction items as [|x l IH]; [done|]. intros HF Hj _ f rest Hsz.
  apply Forall_cons in HF as [Hx HF]. cbn [forallb] in Hj.
  apply andb_true_iff in Hj as [Hjx Hjl]. cbn [elems_size] in Hsz.
  destruct f as [|f]; [lia|].
  destruct l as [|y l'].
  - destruct (Hx Hjx f (String "]" rest)) as (text & Ht & Hp); [lia|done|].
    rewrite elems_text_one, Ht. cbn [default from_option id].
    rewrite parse_elems_S, Hp. reflexivity.
  - destruct (Hx Hjx f (String "," (elems_text (y :: l') +:+ String "]" rest)))
      as (text & Ht & Hp); [lia|done|].
    rewrite elems_text_more, Ht. cbn [default from_option id].
    rewrite append_assoc, append_cons.
    rewrite parse_elems_S, Hp. cbn [mbind option_bind].
    rewrite skip_ws_head by done. rewrite decide_True by done.
    rewrite IH; [done|done|done|done|]. lia.
Qed.

Lemma stringify_json v : is_json v = true → is_Some (stringify v).
Proof.
  intros H. destruct (json_text_head v H) as (c & s & Hs & _). by rewrite Hs.
Qed.

Lemma members_text_one k x t :
  stringify x = Some t → members_text true [(k, x)] = quote k +:+ String ":" t.
Proof.
  intros Ht. cbn [members_text]. rewrite Ht, append_nil, append_nil_r.
  reflexivity.
Qed.

Lemma members_text_more k x t k2 y l :
  stringify x = Some t → is_json y = true →
  members_text true ((k, x) :: (k2, y) :: l)
  = quote k +:+ String ":" (t +:+ String "," (members_text true ((k2, y) :: l))).
Proof.
  intros Ht Hy. destruct (stringify_json y Hy) as [ty Hty].
  cbn [members_text]. rewrite Ht, Hty, !append_nil. reflexivity.
Qed.

Lemma parse_members_S f s :
  parse_members (S f) s
  = match skip_ws s with
    | String q r0 =>
        if decide (q = dquote) then
          '(k, r1) ← parse_chars r0;
          match skip_ws r1 with
          | String c r2 =>
              if decide (c = ":"%char) then
                '(v, r3) ← parse_value f r2;
                match skip_ws r3 with
                | String c' r4 =>
                    if decide (c' = ","%char) then
                      '(ms, r5) ← parse_members f r4;
                      Some ((k, v) :: ms, r5)
                    else if decide (c' = "}"%char) then Some ([(k, v)], r4)
                    else None
                | EmptyString => None
                end
              else None
          | EmptyString => None
          end
        else None
    | EmptyString => None
    end.
Proof. reflexivity. Qed.

Lemma parse_members_step f k X :
  parse_members (S f) (quote k +:+ String ":" X)
  = '(v, r3) ← parse_value f X;
    match skip_ws r3 with
    | String c' r4 =>
        if decide (c' = ","%char) then
          '(ms, r5) ← parse_members f r4; Some ((k, v) :: ms, r5)
        else if decide (c' = "}"%char) then Some ([(k, v)], r4)
        else None
    | EmptyString => None
    end.
Proof.
  rewrite parse_members_S, quote_append.
  rewrite skip_ws_head by done. rewrite decide_True by done.
  rewrite parse_chars_escape. cbn [mbind option_bind].
  rewrite skip_ws_head by done. by rewrite decide_True.
Qed.

Lemma parse_members_text props :
  Forall (λ kv, is_json kv.2 = true → roundtrips kv.2) props →
  all_json props = true →
  props ≠ [] →
  ∀ f rest, members_size props ≤ f →
    parse_members f (members_text true props +:+ String "}" rest)
    = Some (props, rest).
Proof.
  induction props as [|[k x] l IH]; [done|]. intros HF Hj _ f rest Hsz.
  apply Forall_cons in HF as [Hx HF]. cbn [all_json snd] in Hj, Hx.
  apply andb_true_iff in Hj as [Hjx Hjl]. cbn [members_size] in Hsz.
  destruct f as [|f]; [lia|].
  destruct l as [|[k2 y] l'].
  - destruct (Hx Hjx f (String "}" rest)) as (text & Ht & Hp); [lia|done|].
    rewrite (members_text_one k x text Ht), append_assoc, append_cons.
    rewrite parse_members_step, Hp. reflexivity.
  - destruct (Hx Hjx f
                (String "," (members_text true ((k2, y) :: l') +:+ String "}" rest)))
      as (text & Ht & Hp); [lia|done|].
    assert (Hjy : is_json y = true).
    { cbn [all_json] in Hjl. by apply andb_true_iff in Hjl as [? _]. }
    rewrite (members_text_more k x text k2 y l' Ht Hjy).
    rewrite append_assoc, append_cons, append_assoc, append_cons.
    rewrite parse_members_step, Hp. cbn [mbind option_bind].
    rewrite skip_ws_head by done. rewrite decide_True by done.
    rewrite IH; [done|done|done|done|]. lia.
Qed.

Lemma obj_put_fresh acc k v :
  k ∉ acc.*1 → obj_put acc k v = acc ++ [(k, v)].
Proof.
  induction acc as [|[k' v'] acc IH]; [done|]. cbn [fmap list_fmap fst].
  intros Hk. apply not_elem_of_cons in Hk as [Hne Hk]. cbn [obj_put].
  rewrite decide_False by done. by rewrite IH.
Qed.

Lemma obj_of_members_from acc l :
  NoDup (acc ++ l).*1 →
  foldl (λ acc kv, obj_put acc kv.1 kv.2) acc l = acc ++ l.
Proof.
  revert acc. induction l as [|[k v] l IH]; intros acc Hnd.
  - by rewrite app_nil_r.
  - cbn [foldl fst snd]. rewrite obj_put_fresh.
    + rewrite IH; rewrite <- app_assoc; done.
    + rewrite fmap_app in Hnd. apply NoDup_app in Hnd as (_ & Hd & _).
      intros Hin. apply (Hd k Hin). cbn. left.
Qed.

Lemma obj_of_members_nodup props :
  NoDup props.*1 → obj_of_members props = props.
Proof. intros H. unfold obj_of_members. by rewrite obj_of_members_from. Qed.

Theorem json_roundtrips v : is_json v = true → roundtrips v.
Proof.
  induction v as [| |b|n|s|items IH|props IH|f|files|fd] using Value_nested_ind;
    try done; intros Hj fuel rest Hsz Hd.
  - destruct fuel as [|fuel]; [cbn in Hsz; lia|]. by exists "null".
  - destruct fuel as [|fuel]; [cbn in Hsz; lia|]. destruct b; by eexists.
  - destruct fuel as [|fuel]; [cbn in Hsz; lia|]. exists (pretty n).
    split; [done|]. by apply parse_value_num.
  - destruct fuel as [|fuel]; [cbn in Hsz; lia|]. exists (quote s).
    split; [done|]. by rewrite quote_append, parse_value_dquote, parse_chars_escape.
  - rewrite size_arr in Hsz. destruct fuel as [|fuel]; [lia|].
    rewrite is_json_arr in Hj. eexists. split; [apply stringify_arr|].
    rewrite !append_cons, !append_nil, append_assoc, append_cons, append_nil.
    rewrite parse_value_bracket. destruct items as [|x l]; [done|].
    assert (Hjx : is_json x = true).
    { cbn [forallb] in Hj. by apply andb_true_iff in Hj as [? _]. }
    destruct (json_text_head x Hjx) as (c & s & Hs & Hws & Hc1 & Hc2).
    assert (Hhead : ∃ tl, elems_text (x :: l) +:+ String "]" rest = String c tl).
    { cbn [elems_text]. rewrite Hs. cbn [default from_option id].
      rewrite !append_cons. by eexists. }
    destruct Hhead as [tl Hhead].
    rewrite parse_elems_text by (done || lia).
    rewrite Hhead, skip_ws_head by done. by rewrite decide_False.
  - rewrite size_obj in Hsz. destruct fuel as [|fuel]; [lia|].
    rewrite is_json_obj in Hj. apply andb_true_iff in Hj as [Hnd Hj].
    apply bool_decide_eq_true in Hnd.
    eexists. split; [apply stringify_obj|].
    rewrite !append_cons, !append_nil, append_assoc, append_cons, append_nil.
    rewrite parse_value_brace. destruct props as [|[k x] l]; [done|].
    assert (Hhead : ∃ tl, members_text true ((k, x) :: l) +:+ String "}" rest
                          = String dquote tl).
    { assert (Hjx : is_json x = true).
      { cbn [all_json] in Hj. by apply andb_true_iff in Hj as [? _]. }
      destruct (stringify_json x Hjx) as [t Ht].
      cbn [members_text]. rewrite Ht, append_nil. unfold quote.
      rewrite !append_cons. by eexists. }
    destruct Hhead as [tl Hhead].
    rewrite parse_members_text by (done || lia).
    rewrite Hhead, skip_ws_head by done. rewrite decide_False by done.
    cbn [mbind option_bind]. by rewrite obj_of_members_nodup.
Qed.

(** ** The budget of [parse] suffices *)

Lemma length_quote k : 2 ≤ String.length (quote k).
Proof.
  unfold quote. cbn [String.length]. rewrite length_append. cbn [String.length].
  lia.
Qed.

Lemma elems_size_le items :
  Forall (λ x, is_json x = true →
               ∀ text, stringify x = Some text → size x ≤ String.length text)
         items →
  forallb is_json items = true →
  elems_size items ≤ String.length (elems_text items) + 1.
Proof.
  induction items as [|x l IH]; [cbn; lia|]. intros HF Hj.
  apply Forall_cons in HF as [Hx HF]. cbn [forallb] in Hj.
  apply andb_true_iff in Hj as [Hjx Hjl].
  destruct (stringify_json x Hjx) as [t Ht]. specialize (Hx Hjx t Ht).
  specialize (IH HF Hjl). cbn [elems_size].
  destruct l as [|y l'].
  - rewrite elems_text_one, Ht. cbn [default from_option id elems_size]. lia.
  - rewrite elems_text_more, Ht. cbn [default from_option id].
    rewrite length_append. cbn [String.length]. lia.
Qed.

Lemma members_size_le props first :
  Forall (λ kv, is_json kv.2 = true →
                ∀ text, stringify kv.2 = Some text →
                        size kv.2 ≤ String.length text) props →
  all_json props = true →
  members_size props ≤ String.length (members_text first props) + 1.
Proof.
  revert first. induction props as [|[k x] l IH]; intros first HF Hj;
    [cbn; lia|].
  apply Forall_cons in HF as [Hx HF]. cbn [all_json snd] in Hj, Hx.
  apply andb_true_iff in Hj as [Hjx Hjl].
  destruct (stringify_json x Hjx) as [t Ht]. specialize (Hx Hjx t Ht).
  specialize (IH false HF Hjl). cbn [members_size members_text]. rewrite Ht.
  rewrite !length_append. pose proof (length_quote k). cbn [String.length]. lia.
Qed.

Lemma json_size_le v :
  is_json v = true →
  ∀ text, stringify v = Some text → size v ≤ String.length text.
Proof.
  induction v as [| |b|n|s|items IH|props IH|f|files|fd] using Value_nested_ind;
    try done; intros Hj text Ht.
  - injection Ht as <-. cbn. lia.
  - destruct b; injection Ht as <-; cbn; lia.
  - destruct (pretty_head n) as (c & s & Heq & _). cbn [stringify] in Ht.
    rewrite Heq in Ht. injection Ht as <-. cbn. lia.
  - injection Ht as <-. pose proof (length_quote s). cbn [size]. lia.
  - rewrite stringify_arr in Ht. injection Ht as <-. rewrite size_arr.
    rewrite is_json_arr in Hj. pose proof (elems_size_le items IH Hj).
    rewrite !length_append. cbn [String.length]. lia.
  - rewrite stringify_obj in Ht. injection Ht as <-. rewrite size_obj.
    rewrite is_json_obj in Hj. apply andb_true_iff in Hj as [_ Hj].
    pose proof (members_size_le props true IH Hj).
    rewrite !length_append. cbn [String.length]. lia.
Qed.

(** [JSON.parse(JSON.stringify(v))] is [v] for every JSON value. *)
Theorem parse_stringify v :
  is_json v = true → ∃ text, stringify v = Some text ∧ parse text = Some v.
Proof.
  intros Hj. destruct (stringify_json v Hj) as [text Ht].
  exists text. split; [done|]. unfold parse.
  destruct (json_roundtrips v Hj (S (String.length text)) "")
    as (text' & Ht' & Hp); [|done|].
  { pose proof (json_size_le v Hj text Ht). lia. }
  rewrite Ht in Ht'. injection Ht' as <-. rewrite append_nil_r in Hp.
  by rewrite Hp.
Qed.

(* ===================================================================== *)
(** * Part XVI. The form [toFormData] builds                              *)
(* ===================================================================== *)

Lemma find_truthy_is_File l : find_truthy is_File l = existsb is_File l.
Proof.
  unfold find_truthy. induction l as [|x l IH]; [done|].
  cbn [List.find existsb]. destruct (is_File x) eqn:Hx; [|exact IH].
  by destruct x.
Qed.

Lemma foldl_append_files key fs fd :
  foldl (λ fd file, FormData_append key (VFile file) fd) fd fs
  = fd ++ ((λ f, (key, FEFile f)) <$> fs).
Proof.
  revert fd. induction fs as [|f fs IH]; intros fd; [by rewrite app_nil_r|].
  cbn [foldl]. rewrite IH. unfold FormData_append. by rewrite <- app_assoc.
Qed.

Lemma foldl_append_items key items fd :
  foldl (λ fd el, FormData_append key el fd) fd items
  = fd ++ ((λ el, (key, form_entry el)) <$> items).
Proof.
  revert fd. induction items as [|x l IH]; intros fd; [by rewrite app_nil_r|].
  cbn [foldl]. rewrite IH. unfold FormData_append. by rewrite <- app_assoc.
Qed.

Lemma foldl_snoc {A} (l : list A) acc :
  foldl (λ fd kv, fd ++ [kv]) acc l = acc ++ l.
Proof.
  revert acc. induction l as [|x l IH]; intros acc; [by rewrite app_nil_r|].
  cbn [foldl]. rewrite IH. by rewrite <- app_assoc.
Qed.

Lemma toFormData_step_spec fd js k v :
  toFormData_step (fd, js) (k, v)
  = (fd ++ fields_of (k, v),
     if is_file_value v then js else obj_put js k v).
Proof.
  unfold toFormData_step, fields_of, is_file_value. cbn [fst snd].
  destruct v as [| |b|n|s|items|ps|f|files|fd'];
    cbn [is_File is_FileList is_Array orb andb items_of files_of];
    rewrite ?app_nil_r; try reflexivity.
  - rewrite find_truthy_is_File. destruct (existsb is_File items).
    + by rewrite foldl_append_items.
    + by rewrite app_nil_r.
  - by rewrite foldl_append_files.
Qed.

Lemma toFormData_loop props fd js :
  NoDup (js ++ props).*1 →
  foldl toFormData_step (fd, js) props
  = (fd ++ file_fields props, js ++ json_part props).
Proof.
  revert fd js. induction props as [|[k v] l IH]; intros fd js Hnd.
  - by rewrite !app_nil_r.
  - cbn [foldl]. rewrite toFormData_step_spec.
    unfold file_fields, json_part. cbn [flat_map List.filter snd].
    fold (file_fields l) (json_part l).
    rewrite fmap_app in Hnd. cbn [fmap list_fmap fst] in Hnd.
    assert (Hk : k ∉ js.*1).
    { apply NoDup_app in Hnd as (_ & Hd & _). intros Hin.
      apply (Hd k Hin). left. }
    destruct (is_file_value v); cbn [negb].
    + rewrite IH; [by rewrite <- app_assoc|].
      rewrite fmap_app. apply NoDup_app in Hnd as (H1 & H2 & H3).
      apply NoDup_app. split; [done|]. split.
      * intros x Hx Hin. apply (H2 x Hx). by right.
      * by apply NoDup_cons in H3 as [_ ?].
    + rewrite obj_put_fresh by done. rewrite IH.
      * by rewrite <- !app_assoc.
      * rewrite <- app_assoc. cbn [app]. rewrite fmap_app. done.
Qed.

Lemma json_part_is_json props :
  plain_body props = true → is_json (VObj (json_part props)) = true.
Proof.
  unfold plain_body. intros H. apply andb_true_iff in H as [Hnd Hall].
  apply bool_decide_eq_true in Hnd. rewrite is_json_obj.
  apply andb_true_iff. split.
  - apply bool_decide_eq_true. revert Hnd. clear.
    induction props as [|[k v] l IH]; [done|]. cbn [fmap list_fmap fst].
    intros Hnd. apply NoDup_cons in Hnd as [Hk Hnd].
    unfold json_part. cbn [List.filter snd]. fold (json_part l).
    destruct (negb (is_file_value v)); [|by apply IH].
    cbn [fmap list_fmap fst]. apply NoDup_cons. split; [|by apply IH].
    intros Hin. apply Hk. clear -Hin.
    induction l as [|[k' v'] l IH]; [done|].
    unfold json_part in Hin. cbn [List.filter snd] in Hin.
    fold (json_part l) in Hin. cbn [fmap list_fmap fst].
    destruct (negb (is_file_value v')).
    + cbn [fmap list_fmap fst] in Hin. apply elem_of_cons in Hin as [->|Hin];
        [left|right; by apply IH].
    + right. by apply IH.
  - clear Hnd. induction props as [|[k v] l IH]; [done|].
    cbn [forallb snd] in Hall. apply andb_true_iff in Hall as [Hv Hall].
    unfold json_part. cbn [List.filter snd]. fold (json_part l).
    destruct (is_file_value v); cbn [negb]; [by apply IH|].
    cbn [all_json]. cbn [orb] in Hv. rewrite Hv. by apply IH.
Qed.

(** C9. For every plain key-value body (distinct keys, every value a file
    value or a JSON value) [toFormData] yields a form whose first field is
    [serialized-json]; its value is the JSON text of the body restricted
    to the keys whose value is neither a file, a file list nor an array
    containing a file, and [JSON.parse] reads that object back from it.
    The fields of the file values follow in key order, each under its own
    key, one field per file of a list and per element of an array. The
    method is the same in both [FetchApi] variants. *)
Theorem C9_form_data_conversion props :
  plain_body props = true →
  ∃ text,
    FetchApi.toFormData (VObj props)
    = ("serialized-json", FEString text) :: file_fields props
    ∧ FetchApiTs.toFormData (VObj props) = FetchApi.toFormData (VObj props)
    ∧ Json.stringify (VObj (json_part props)) = Some text
    ∧ Json.parse text = Some (VObj (json_part props)).
Proof.
  intros Hp. destruct (parse_stringify _ (json_part_is_json props Hp))
    as (text & Ht & Hparse).
  exists text. split; [|done].
  unfold FetchApi.toFormData, toFormData, for_in. cbn [own_props default from_option id].
  rewrite toFormData_loop.
  - cbn [app]. unfold JSON_stringify. rewrite Ht.
    unfold FormData_append. cbn [app form_entry to_string].
    by rewrite foldl_snoc.
  - cbn [app]. unfold plain_body in Hp. apply andb_true_iff in Hp as [Hnd _].
    by apply bool_decide_eq_true in Hnd.
Qed.


Lemma C9_witness :
  ∃ text,
    FetchApi.toFormData (VObj [("a", VNum 1); ("file", VFile Scenario.photo)])
    = [("serialized-json", FEString text); ("file", FEFile Scenario.photo)]
    ∧ Json.parse text = Some (VObj [("a", VNum 1)]).
Proof.
  destruct (C9_form_data_conversion
              [("a", VNum 1); ("file", VFile Scenario.photo)] eq_refl)
    as (text & Hform & _ & _ & Hparse).
  exists text. split; [exact Hform|exact Hparse].
Defined.

(* ===================================================================== *)
(** * Part XVII. [Fwr.fetch]: single attempts, bounds and the token payload *)
(* ===================================================================== *)

Lemma Fwr_sent_requests c a w :
  requests (trace (Fwr_sent c a w)) = requests (trace w) ++ [Fwr_request c a w].
Proof.
  rewrite Fwr_sent_trace, requests_app.
  by destruct (call_events_obs a (body a) (Fwr_request c a w)) as (_ & -> & _).
Qed.

Lemma Fwr_sent_entries c a w :
  fetch_entries (trace (Fwr_sent c a w)) = fetch_entries (trace w) ++ [a]
  ∧ token_calls (trace (Fwr_sent c a w)) = token_calls (trace w).
Proof.
  rewrite Fwr_sent_trace, fetch_entries_app, token_calls_app.
  destruct (call_events_obs a (body a) (Fwr_request c a w)) as (-> & _ & ->).
  split; [done|lia].
Qed.

Lemma allowed_own base ts a : base +:+ url a ∈ allowed_urls base ts a.
Proof. unfold allowed_urls. apply list_elem_of_here. Qed.

Lemma allowed_token base p a :
  base +:+ p ∈ allowed_urls base (Some (TSPath p)) a.
Proof. unfold allowed_urls. apply list_elem_of_further, list_elem_of_here. Qed.

Lemma acquire_events_requests c w :
  length (requests (Fwr_acquire_events c w))
    + token_calls (Fwr_acquire_events c w) ≤ 1
  ∧ length (fetch_entries (Fwr_acquire_events c w)) ≤ 1
  ∧ Forall (λ x, refresh x = Some false)
           (fetch_entries (Fwr_acquire_events c w))
  ∧ ∀ a, Forall (λ r, req_url r
                      ∈ allowed_urls (Fwr.baseUrl c) (Fwr.tokenSource c) a)
                (requests (Fwr_acquire_events c w)).
Proof.
  unfold Fwr_acquire_events.
  destruct (Fwr.tokenSource c) as [[p|f]|]; cbn [requests token_calls fetch_entries length Fwr_encode_event is_FormData].
  - split; [lia|]. split; [lia|]. split; [by repeat constructor|].
    intros a. constructor; [|constructor]. apply allowed_token.
  - split; [lia|]. split; [lia|]. split; [constructor|]. intros a. constructor.
  - split; [lia|]. split; [lia|]. split; [constructor|]. intros a. constructor.
Qed.

Lemma ok_status_iff resp :
  ok_status resp = true ↔ status resp = 200%Z ∨ status resp = 201%Z.
Proof.
  unfold ok_status. rewrite orb_true_iff, !bool_decide_eq_true. tauto.
Qed.

Lemma Fwr_sent_content_type c a w :
  Headers_get "Content-Type" (headers (Fwr_sent c a w))
  = if is_FormData (body a) then None else Some "application/json".
Proof.
  unfold Fwr_sent, Fwr.encode, Headers_get.
  destruct (is_FormData (body a)); cbn.
  - apply lookup_delete_eq.
  - apply lookup_insert_eq.
Qed.

(** X1. [Fwr.fetch], success: when the transport answers the request of
    a call with status 200 or 201, the call settles with what
    [response.json()] yields (the parsed body, unchanged) for every budget
    of at least one, whatever the refresh flag and the token source are;
    exactly one request was sent, the token source was not called, and
    neither the store nor the Authorization header changed. *)
Theorem Fwr_fetch_success net n c a w resp :
  net (requests (trace w)) (Fwr_request c a w) = NetOk resp →
  status resp = 200%Z ∨ status resp = 201%Z →
  ∃ w', Fwr.fetch net (S n) c a w = Some (json resp, w')
    ∧ (∀ v, body_json resp = Some v → json resp = Resolve v)
    ∧ requests (trace w') = requests (trace w) ++ [Fwr_request c a w]
    ∧ fetch_entries (trace w') = fetch_entries (trace w) ++ [a]
    ∧ token_calls (trace w') = token_calls (trace w)
    ∧ storage w' = storage w
    ∧ auth_header w' = auth_header w.
Proof.
  intros Hnet Hst. apply ok_status_iff in Hst.
  exists (Fwr_sent c a w). rewrite Fwr_fetch_S, Hnet, Hst.
  split; [done|]. split; [by intros v Hv; unfold json; rewrite Hv|].
  split; [apply Fwr_sent_requests|].
  destruct (Fwr_sent_entries c a w) as [-> ->].
  split; [done|]. split; [done|]. split; [apply Fwr_sent_storage|].
  apply Fwr_sent_auth.
Qed.

Lemma Fwr_fetch_success_witness :
  ∃ w',
    Fwr.fetch (Scenario.scripted [Scenario.ok Scenario.no_items]) 1
      Scenario.fwr_client Scenario.get_items (Scenario.fresh ∅)
    = Some (Resolve Scenario.no_items, w')
    ∧ storage w' = ∅.
Proof.
  destruct (Fwr_fetch_success
              (Scenario.scripted [Scenario.ok Scenario.no_items]) 0
              Scenario.fwr_client Scenario.get_items (Scenario.fresh ∅)
              (mkResponse 200 (Some Scenario.no_items))
              eq_refl (or_introl eq_refl))
    as (w' & Hrun & _ & _ & _ & _ & Hst & _).
  exists w'. split; [exact Hrun|exact Hst].
Defined.

Lemma Fwr_error_cases resp w :
  (Fwr.error resp w).2 = w
  ∧ ∃ e, (Fwr.error resp w).1 = Reject e
    ∧ (∀ props, body_json resp = Some (VObj props) →
         e = error_record "errors" resp props)
    ∧ (body_json resp = None → e = ExnBody)
    ∧ (body_json resp = Some VNull ∨ body_json resp = Some VUndefined →
         e = ExnTypeError).
Proof.
  split; [apply error_world|]. unfold Fwr.error.
  destruct (body_json resp) as [err|].
  2:{ eexists. split; [done|]. split; [done|]. split; [done|]. by intros [|]. }
  destruct err as [| | | | | |ps| | |]; cbn [get_member fst]; eexists;
    (split; [done|]);
    (split; [intros props' [= <-] || intros props' [=]|]); try done;
    (split; [done|]); try (by intros [[=]|[=]]); done.
Qed.

(** X2. [Fwr.fetch], the error path: when the answer has a status other
    than 200 and 201 and the call does not enter the refresh sequence (the
    status is not 401, or the call passes refresh=false, or no token
    source is configured), the call rejects after that single request.
    For a response whose body is an object the rejection carries the
    record [{status, message, errors}] read from it (absent members are
    [undefined]); a body that is not JSON rejects as [json()] does, and a
    [null] body raises the TypeError of the member access. The token
    source is not called, the store and the Authorization header are left
    as they were. *)
Theorem Fwr_fetch_error net n c a w resp :
  net (requests (trace w)) (Fwr_request c a w) = NetOk resp →
  status resp ≠ 200%Z → status resp ≠ 201%Z →
  status resp ≠ 401%Z ∨ refresh a = Some false
    ∨ configured (Fwr.tokenSource c) = false →
  ∃ e w', Fwr.fetch net (S n) c a w = Some (Reject e, w')
    ∧ (∀ props, body_json resp = Some (VObj props) →
         e = error_record "errors" resp props)
    ∧ (body_json resp = None → e = ExnBody)
    ∧ (body_json resp = Some VNull ∨ body_json resp = Some VUndefined →
         e = ExnTypeError)
    ∧ requests (trace w') = requests (trace w) ++ [Fwr_request c a w]
    ∧ fetch_entries (trace w') = fetch_entries (trace w) ++ [a]
    ∧ token_calls (trace w') = token_calls (trace w)
    ∧ storage w' = storage w
    ∧ auth_header w' = auth_header w.
Proof.
  intros Hnet H200 H201 Hwhy.
  assert (Hok : ok_status resp = false).
  { apply not_true_is_false. rewrite ok_status_iff. tauto. }
  destruct (Fwr_error_cases resp (Fwr_sent c a w)) as (Hw & e & He & Hrec).
  assert (Hf : Fwr.fetch net (S n) c a w = Some (Fwr.error resp (Fwr_sent c a w))).
  { rewrite Fwr_fetch_S, Hnet, Hok.
    destruct Hwhy as [H401|[Hr|Hc]].
    - by rewrite bool_decide_eq_false_2.
    - rewrite Hr. by rewrite andb_false_r.
    - rewrite Hc. by destruct (_ && _). }
  exists e, (Fwr_sent c a w). split.
  { rewrite Hf. by rewrite (surjective_pairing (Fwr.error _ _)), He, Hw. }
  destruct Hrec as (H1 & H2 & H3). do 3 (split; [done|]).
  split; [apply Fwr_sent_requests|].
  destruct (Fwr_sent_entries c a w) as [-> ->].
  split; [done|]. split; [done|]. split; [apply Fwr_sent_storage|].
  apply Fwr_sent_auth.
Qed.

Lemma Fwr_fetch_error_witness :
  ∃ w',
    Fwr.fetch (Scenario.scripted [Scenario.server_error]) 1
      Scenario.fwr_client Scenario.get_items (Scenario.fresh ∅)
    = Some (Reject (ExnValue (VObj [("status", VNum 500);
                                    ("message", VStr "Internal error");
                                    ("errors", VUndefined)])), w').
Proof.
  destruct (Fwr_fetch_error
              (Scenario.scripted [Scenario.server_error]) 0
              Scenario.fwr_client Scenario.get_items (Scenario.fresh ∅)
              (mkResponse 500 (Some (VObj [("message", VStr "Internal error")])))
              eq_refl)
    as (e & w' & Hrun & Hrec & _); [simpl; lia|simpl; lia|left; simpl; lia|].
  exists w'. rewrite Hrun. by rewrite (Hrec _ eq_refl).
Defined.

(** X3. [Fwr.fetch], transport failure: when the transport itself
    rejects, the call rejects with that failure after one request; it is
    never retried and never starts a refresh, and the Content-Type header
    written by the body-encoding stage stays in the shared header
    collection. *)
Theorem Fwr_fetch_network_failure net n c a w :
  net (requests (trace w)) (Fwr_request c a w) = NetFail →
  ∃ w', Fwr.fetch net (S n) c a w = Some (Reject ExnNetwork, w')
    ∧ requests (trace w') = requests (trace w) ++ [Fwr_request c a w]
    ∧ fetch_entries (trace w') = fetch_entries (trace w) ++ [a]
    ∧ token_calls (trace w') = token_calls (trace w)
    ∧ storage w' = storage w
    ∧ auth_header w' = auth_header w
    ∧ Headers_get "Content-Type" (headers w')
      = if is_FormData (body a) then None else Some "application/json".
Proof.
  intros Hnet. exists (Fwr_sent c a w). rewrite Fwr_fetch_S, Hnet.
  split; [done|]. split; [apply Fwr_sent_requests|].
  destruct (Fwr_sent_entries c a w) as [-> ->].
  split; [done|]. split; [done|]. split; [apply Fwr_sent_storage|].
  split; [apply Fwr_sent_auth|]. apply Fwr_sent_content_type.
Qed.

Lemma Fwr_fetch_network_failure_witness :
  ∃ w',
    Fwr.fetch (Scenario.scripted []) 1 Scenario.fwr_client Scenario.get_items
      (Scenario.fresh ∅) = Some (Reject ExnNetwork, w')
    ∧ Headers_get "Content-Type" (headers w') = Some "application/json".
Proof.
  destruct (Fwr_fetch_network_failure (Scenario.scripted []) 0
              Scenario.fwr_client Scenario.get_items (Scenario.fresh ∅) eq_refl)
    as (w' & Hrun & _ & _ & _ & _ & _ & Hct).
  exists w'. split; [exact Hrun|exact Hct].
Defined.

(** X4. [Fwr.fetch] settles and is bounded, for every client, call, world
    and transport: every budget of at least two gives the result of budget
    two; the call sends at least one and, together with the calls of the
    token callable, at most three requests, enters [fetch] at most three
    times, every entry after the first has refresh=false, and every
    request goes to the url of the call or to the token path. *)
Theorem Fwr_fetch_bounded net n c a w :
  ∃ res w' t es,
    Fwr.fetch net (S (S n)) c a w = Some (res, w')
    ∧ Fwr.fetch net 2 c a w = Some (res, w')
    ∧ trace w' = trace w ++ t
    ∧ 1 ≤ length (requests t)
    ∧ length (requests t) + token_calls t ≤ 3
    ∧ fetch_entries t = a :: es
    ∧ length es ≤ 2
    ∧ Forall (λ x, refresh x = Some false) es
    ∧ Forall (λ r, req_url r
                   ∈ allowed_urls (Fwr.baseUrl c) (Fwr.tokenSource c) a)
             (requests t).
Proof.
  rewrite !Fwr_fetch_settle. unfold Fwr_settle.
  destruct (call_events_obs a (body a) (Fwr_request c a w)) as (Hf1 & Hr1 & Hc1).
  pose proof (allowed_own (Fwr.baseUrl c) (Fwr.tokenSource c) a) as Hown.
  set (call := [EvFetch a; Fwr_encode_event (body a);
                EvRequest (Fwr_request c a w)]) in *.
  destruct (Fwr_refreshes net c a w).
  - pose proof (Fwr_acquire_trace net c (Fwr_sent c a w)) as Htr.
    destruct (acquire_events_requests c (Fwr_sent c a w))
      as (Hq1 & Hq3 & Hq5 & Hq6).
    set (acq := Fwr_acquire_events c (Fwr_sent c a w)) in *.
    assert (Hstop : ∀ w1,
      trace w1 = trace (Fwr_sent c a w) ++ acq →
      ∃ t es,
        trace w1 = trace w ++ t
        ∧ 1 ≤ length (requests t)
        ∧ length (requests t) + token_calls t ≤ 3
        ∧ fetch_entries t = a :: es
        ∧ length es ≤ 2
        ∧ Forall (λ x, refresh x = Some false) es
        ∧ Forall (λ r, req_url r
                       ∈ allowed_urls (Fwr.baseUrl c) (Fwr.tokenSource c) a)
                 (requests t)).
    { intros w1 Hw1. exists (call ++ acq), (fetch_entries acq).
      split. { rewrite Hw1, Fwr_sent_trace. by rewrite <- app_assoc. }
      rewrite !requests_app, !token_calls_app, !fetch_entries_app, !length_app.
      rewrite Hf1, Hr1, Hc1. cbn [length app].
      split; [lia|]. split; [lia|]. split; [reflexivity|].
      split; [lia|]. split; [exact Hq5|].
      constructor; [exact Hown|]. apply Hq6. }
    destruct (Fwr_acquire net c (Fwr_sent c a w)) as [[tok|e] w1];
      cbn [fst snd] in *.
    + destruct (token_refused tok).
      { destruct (Hstop w1 Htr) as (t & es & H).
        by exists (Reject ExnTypeError), w1, t, es. }
      set (w2 := store_token tok w1).
      destruct (store_token_events_obs tok) as (Hse & Hsr & Hsc).
      destruct (call_events_obs (retry_of a) (body (retry_of a))
                  (Fwr_request c (retry_of a) w2)) as (Hf3 & Hr3 & Hc3).
      set (again := [EvFetch (retry_of a); Fwr_encode_event (body (retry_of a));
                     EvRequest (Fwr_request c (retry_of a) w2)]) in *.
      exists (Fwr_reply net c (retry_of a) w2), (Fwr_sent c (retry_of a) w2),
        (call ++ acq ++ store_token_events tok ++ again),
        (fetch_entries acq ++ [retry_of a]).
      split; [reflexivity|]. split; [reflexivity|]. split.
      { rewrite Fwr_sent_trace. unfold w2.
        rewrite store_token_trace, Htr, Fwr_sent_trace.
        by rewrite <- !app_assoc. }
      rewrite !requests_app, !token_calls_app, !fetch_entries_app, !length_app.
      rewrite Hf1, Hr1, Hc1, Hse, Hsr, Hsc, Hf3, Hr3, Hc3. cbn [length app].
      split; [lia|]. split; [lia|]. split; [reflexivity|].
      split; [lia|].
      split.
      { apply Forall_app. split; [exact Hq5|]. by repeat constructor. }
      constructor; [exact Hown|]. apply Forall_app. split; [apply Hq6|].
      constructor; [exact Hown|constructor].
    + destruct (Hstop w1 Htr) as (t & es & H).
      by exists (Reject failed_to_get_token), w1, t, es.
  - exists (Fwr_reply net c a w), (Fwr_sent c a w), call, [].
    split; [reflexivity|]. split; [reflexivity|].
    split; [apply Fwr_sent_trace|].
    rewrite Hf1, Hr1, Hc1. cbn [length].
    split; [lia|]. split; [lia|]. split; [done|].
    split; [lia|]. split; [constructor|].
    constructor; [exact Hown|constructor].
Qed.

Lemma Fwr_reply_resolve net c a w v :
  Fwr_reply net c a w = Resolve v →
  ∃ resp, net (requests (trace w)) (Fwr_request c a w) = NetOk resp
    ∧ (status resp = 200%Z ∨ status resp = 201%Z)
    ∧ body_json resp = Some v.
Proof.
  unfold Fwr_reply. destruct (net _ _) as [|resp]; [done|].
  destruct (ok_status resp) eqn:Hok.
  - intros Hj. exists resp. split; [done|]. split; [by apply ok_status_iff|].
    unfold json in Hj. destruct (body_json resp); by simplify_eq.
  - intros Hj. pose proof (error_is_reject resp (Fwr_sent c a w)) as Hr.
    by rewrite Hj in Hr.
Qed.

Lemma Fwr_settle_resolve net c a w v w' :
  Fwr_settle net c a w = (Resolve v, w') →
  ∃ h r resp,
    requests (trace w') = h ++ [r]
    ∧ net h r = NetOk resp
    ∧ (status resp = 200%Z ∨ status resp = 201%Z)
    ∧ body_json resp = Some v
    ∧ req_url r = Fwr.baseUrl c +:+ url a.
Proof.
  unfold Fwr_settle. destruct (Fwr_refreshes net c a w).
  - destruct (Fwr_acquire net c (Fwr_sent c a w)) as [[tok|e] w1]; [|done].
    destruct (token_refused tok); [done|].
    intros [= Hres <-].
    destruct (Fwr_reply_resolve _ _ _ _ _ Hres) as (resp & Hn & Hs & Hb).
    exists (requests (trace (store_token tok w1))),
      (Fwr_request c (retry_of a) (store_token tok w1)), resp.
    split; [apply Fwr_sent_requests|]. done.
  - intros [= Hres <-].
    destruct (Fwr_reply_resolve _ _ _ _ _ Hres) as (resp & Hn & Hs & Hb).
    exists (requests (trace w)), (Fwr_request c a w), resp.
    split; [apply Fwr_sent_requests|]. done.
Qed.

(** X5. [Fwr.baseQuery] never rejects: it yields [{data}] exactly when
    [fetch] resolves and [{error}] exactly when it rejects, and [data] is
    always the parsed body of the answer with status 200 or 201 to the
    last request sent, a request to the url of the call. *)
Theorem Fwr_baseQuery_data net n c a w :
  ∃ q w',
    Fwr.baseQuery net (S (S n)) c a w = Some (q, w')
    ∧ match q with
      | QData v =>
          Fwr.fetch net (S (S n)) c a w = Some (Resolve v, w')
          ∧ ∃ h r resp,
              requests (trace w') = h ++ [r]
              ∧ net h r = NetOk resp
              ∧ (status resp = 200%Z ∨ status resp = 201%Z)
              ∧ body_json resp = Some v
              ∧ req_url r = Fwr.baseUrl c +:+ url a
      | QError e => Fwr.fetch net (S (S n)) c a w = Some (Reject e, w')
      end.
Proof.
  unfold Fwr.baseQuery. rewrite Fwr_fetch_settle.
  destruct (Fwr_settle net c a w) as [[v|e] w'] eqn:Hs.
  - exists (QData v), w'. split; [done|]. split; [done|].
    by apply (Fwr_settle_resolve net c a w).
  - by exists (QError e), w'.
Qed.






(* ===================================================================== *)
(** * Part XVIII. The record the transport is called with                *)
(* ===================================================================== *)

Lemma other_args_lookup a k :
  k ∉ ["url"; "method"; "body"; "refresh"] →
  other_args a !! k = rest a !! k.
Proof.
  rewrite !not_elem_of_cons. intros (H1 & H2 & H3 & H4 & _).
  unfold other_args. by rewrite !lookup_delete_ne.
Qed.

Lemma other_args_named a k :
  k ∈ ["url"; "method"; "body"; "refresh"] → other_args a !! k = None.
Proof.
  rewrite !elem_of_cons, elem_of_nil.
  unfold other_args. intros [-> | [-> | [-> | [-> | []]]]].
  - apply lookup_delete_eq.
  - rewrite lookup_delete_ne by done. apply lookup_delete_eq.
  - rewrite !(lookup_delete_ne _ "url"), !(lookup_delete_ne _ "method") by done.
    apply lookup_delete_eq.
  - rewrite !(lookup_delete_ne _ "url"), !(lookup_delete_ne _ "method"),
      !(lookup_delete_ne _ "body") by done.
    apply lookup_delete_eq.
Qed.

Lemma call_args_lookup a m b k :
  k ≠ "method" → k ≠ "body" →
  call_args a m b !! k = other_args a !! k.
Proof.
  intros Hm Hb. unfold call_args. destruct (is_patch_or_post m); [|done].
  by rewrite !lookup_insert_ne.
Qed.

Lemma options_lookup (opts : RequestInit) m k :
  k ≠ "method" →
  (opts ∪ {[ "method" := IVal (VStr (method_name m)) ]}) !! k = opts !! k.
Proof.
  intros Hm. destruct (opts !! k) as [v|] eqn:Ho.
  - by erewrite lookup_union_Some_l.
  - rewrite lookup_union_r by done. by apply lookup_singleton_ne.
Qed.

Lemma call_init_lookup (opts : RequestInit) a m b :
  call_init opts m (call_args a m b) !! "method"
  = Some (if is_patch_or_post m then IVal (VStr (method_name m))
          else default (IVal (VStr (method_name m))) (opts !! "method"))
  ∧ (∀ k, k ∈ ["url"; "refresh"] →
       call_init opts m (call_args a m b) !! k = opts !! k)
  ∧ (∀ k, k ∉ ["url"; "method"; "body"; "refresh"] →
       call_init opts m (call_args a m b) !! k
       = match rest a !! k with Some v => Some v | None => opts !! k end).
Proof.
  unfold call_init. split; [|split].
  - unfold call_args. destruct (is_patch_or_post m).
    + erewrite lookup_union_Some_l; [done|].
      rewrite lookup_insert_ne by done. apply lookup_insert_eq.
    + rewrite lookup_union_r
        by (apply other_args_named; rewrite !elem_of_cons; auto).
      destruct (opts !! "method") as [v|] eqn:Ho.
      * by erewrite lookup_union_Some_l.
      * rewrite lookup_union_r by done. apply lookup_singleton_eq.
  - intros k Hk.
    assert (Hne : k ≠ "method" ∧ k ≠ "body").
    { rewrite !elem_of_cons, elem_of_nil in Hk.
      by destruct Hk as [-> | [-> | []]]. }
    destruct Hne as [Hm Hb].
    rewrite lookup_union_r.
    + by apply options_lookup.
    + rewrite call_args_lookup by done. apply other_args_named.
      rewrite !elem_of_cons in Hk |- *.
      destruct Hk as [-> | [-> | Hk]];
        [by left|do 3 right; by left|by apply elem_of_nil in Hk].
  - intros k Hk.
    assert (Hne : k ≠ "method" ∧ k ≠ "body").
    { rewrite !not_elem_of_cons in Hk. by destruct Hk as (_ & ? & ? & _). }
    destruct Hne as [Hm Hb].
    assert (Hargs : call_args a m b !! k = rest a !! k).
    { rewrite call_args_lookup by done. by apply other_args_lookup. }
    destruct (rest a !! k) as [v|] eqn:Hr.
    + by erewrite lookup_union_Some_l.
    + rewrite lookup_union_r by done. by apply options_lookup.
Qed.

(** X8. The record the transport is called with,
    [{ method, ...this.options, ...args }], in [Fwr.fetch] and in the
    [fetch] of index.js: for POST and PATCH the method is the method of
    the call; for GET and DELETE a [method] of the stored options replaces
    it; the [url] and [refresh] of the call never reach the record; for
    every other key but [body] a per-call value replaces the stored one,
    the [headers] key included. *)
Theorem dispatched_record_precedence :
  (∀ c a w,
     let m := default GET (method a) in
     let init := req_init (Fwr_request c a w) in
     init !! "method"
     = Some (if is_patch_or_post m then IVal (VStr (method_name m))
             else default (IVal (VStr (method_name m)))
                          (Fwr.options c !! "method"))
     ∧ (∀ k, k ∈ ["url"; "refresh"] → init !! k = Fwr.options c !! k)
     ∧ (∀ k, k ∉ ["url"; "method"; "body"; "refresh"] →
          init !! k = match rest a !! k with
                      | Some v => Some v
                      | None => Fwr.options c !! k
                      end))
  ∧ (∀ c a b w1,
       let m := default GET (method a) in
       let init := req_init (FetchApi_request c a b w1) in
       init !! "method"
       = Some (if is_patch_or_post m then IVal (VStr (method_name m))
               else default (IVal (VStr (method_name m)))
                            (FetchApi.options c !! "method"))
       ∧ (∀ k, k ∈ ["url"; "refresh"] → init !! k = FetchApi.options c !! k)
       ∧ (∀ k, k ∉ ["url"; "method"; "body"; "refresh"] →
            init !! k = match rest a !! k with
                        | Some v => Some v
                        | None => FetchApi.options c !! k
                        end)).
Proof.
  split.
  - intros c a w. apply call_init_lookup.
  - intros c a b w1. apply call_init_lookup.
Qed.

(* ===================================================================== *)
(** * Part XIX. [setAuthHeader] and [deleteAuthHeader]                   *)
(* ===================================================================== *)

Lemma headers_set_cases name v w :
  is_header_name name = true →
  headers_set name v w
  = if accepts (Some v) then Some (set_header name (normalize v) w) else None.
Proof. intros Hn. unfold headers_set, accepts. by rewrite Hn. Qed.

Lemma set_header_get name v w k :
  Headers_get k (headers (set_header name v w))
  = if decide (lower k = lower name) then Some v else Headers_get k (headers w).
Proof.
  unfold Headers_get. cbn [headers set_header]. unfold Headers_put.
  destruct (decide (lower k = lower name)) as [->|Hk].
  - apply lookup_insert_eq.
  - by rewrite lookup_insert_ne.
Qed.

Lemma setAuthHeader_spec fp w :
  let r := Fwr.setAuthHeader fp w in
  let f := nonempty fp in
  let s := String.append "Bearer " <$> nonempty (token w) in
  storage r.2 = storage w
  ∧ requests (trace r.2) = requests (trace w)
  ∧ r.1 = (if accepts f && accepts s then None else Some ExnTypeError)
  ∧ (∀ k, Headers_get k (headers r.2)
          = if decide (lower k = "fingerprint")
            then (if accepts f
                  then header_after (Headers_get k (headers w)) f
                  else Headers_get k (headers w))
            else if decide (lower k = "authorization")
            then (if accepts f && accepts s
                  then header_after (Headers_get k (headers w)) s
                  else Headers_get k (headers w))
            else Headers_get k (headers w)).
Proof.
  cbn zeta. unfold Fwr.setAuthHeader, token, getItem.
  assert (Hfp : ∀ x, headers_set "Fingerprint" x w
                = if accepts (Some x)
                  then Some (set_header "Fingerprint" (normalize x) w)
                  else None) by (intros x; by apply headers_set_cases).
  assert (Hau : ∀ x w0, headers_set "Authorization" x w0
                = if accepts (Some x)
                  then Some (set_header "Authorization" (normalize x) w0)
                  else None) by (intros x w0; by apply headers_set_cases).
  assert (Hstep : ∀ w1 : World,
    storage w1 = storage w →
    requests (trace w1) = requests (trace w) →
    let r := match storage w1 !! "accessToken" with
             | Some accessToken =>
                 if truthy (VStr accessToken)
                 then match headers_set "Authorization"
                                ("Bearer " +:+ accessToken) w1 with
                      | Some w' => (None, w')
                      | None => (Some ExnTypeError, w1)
                      end
                 else (None, w1)
             | None => (None, w1)
             end in
    let s := String.append "Bearer " <$> nonempty (storage w !! "accessToken") in
    storage r.2 = storage w
    ∧ requests (trace r.2) = requests (trace w)
    ∧ r.1 = (if accepts s then None else Some ExnTypeError)
    ∧ ∀ k, Headers_get k (headers r.2)
           = if decide (lower k = "authorization")
             then (if accepts s
                   then header_after (Headers_get k (headers w1)) s
                   else Headers_get k (headers w1))
             else Headers_get k (headers w1)).
  { intros w1 Hst Hrq. cbn zeta. rewrite Hst.
    destruct (storage w !! "accessToken") as [t|]; cbn [nonempty fmap option_fmap option_map].
    2:{ cbn [accepts snd fst]. do 3 (split; [done|]). intros k.
        by destruct (decide _). }
    destruct (truthy (VStr t)); cbn [fmap option_fmap option_map].
    2:{ cbn [accepts snd fst]. do 3 (split; [done|]). intros k.
        by destruct (decide _). }
    rewrite Hau. destruct (accepts (Some ("Bearer " +:+ t))); cbn [fst snd].
    - split; [done|]. split.
      { cbn [trace set_header]. rewrite requests_app. cbn [requests].
        by rewrite app_nil_r. }
      split; [done|]. intros k. rewrite set_header_get.
      change (lower "Authorization") with "authorization".
      by destruct (decide _).
    - do 3 (split; [done|]). intros k. by destruct (decide _). }
  destruct fp as [x|]; cbn [nonempty].
  2:{ cbn [accepts andb]. destruct (Hstep w eq_refl eq_refl) as (H1 & H2 & H3 & H4).
      split; [done|]. split; [done|]. split; [done|]. intros k. rewrite H4.
      destruct (decide (lower k = "fingerprint")) as [Hk|Hk]; [|done].
      rewrite decide_False; [done|]. by rewrite Hk. }
  destruct (truthy (VStr x)).
  2:{ cbn [accepts andb]. destruct (Hstep w eq_refl eq_refl) as (H1 & H2 & H3 & H4).
      split; [done|]. split; [done|]. split; [done|]. intros k. rewrite H4.
      destruct (decide (lower k = "fingerprint")) as [Hk|Hk]; [|done].
      rewrite decide_False; [done|]. by rewrite Hk. }
  rewrite Hfp. destruct (accepts (Some x)) eqn:Hx; cbn [andb fst snd].
  2:{ do 3 (split; [done|]). intros k. by repeat destruct (decide _). }
  destruct (Hstep (set_header "Fingerprint" (normalize x) w) eq_refl)
    as (H1 & H2 & H3 & H4).
  { cbn [trace set_header]. rewrite requests_app. cbn [requests].
    by rewrite app_nil_r. }
  split; [done|]. split; [done|]. split; [done|]. intros k. rewrite H4.
  rewrite !set_header_get. change (lower "Fingerprint") with "fingerprint".
  destruct (decide (lower k = "fingerprint")) as [Hk|Hk].
  - rewrite decide_False; [done|]. by rewrite Hk.
  - done.
Qed.

(** X9. [setAuthHeader(fingerprint?)], the same method in the three
    classes: it never writes the store and sends no request; it touches
    only the Fingerprint and Authorization headers; a non-empty
    fingerprint is stored under Fingerprint and a non-empty persisted
    token as the stored form of [Bearer <token>] under Authorization; it
    throws the TypeError of [headers.set] exactly when one of the two
    values is refused, and a refused token leaves the Authorization header
    as it was while an accepted fingerprint has already been written. *)
Theorem setAuthHeader_restores fp w :
  let r := Fwr.setAuthHeader fp w in
  let f := nonempty fp in
  let s := String.append "Bearer " <$> nonempty (token w) in
  FetchApi.setAuthHeader fp w = r
  ∧ FetchApiTs.setAuthHeader fp w = r
  ∧ storage r.2 = storage w
  ∧ requests (trace r.2) = requests (trace w)
  ∧ r.1 = (if accepts f && accepts s then None else Some ExnTypeError)
  ∧ (accepts f = true →
       Headers_get "Fingerprint" (headers r.2)
       = header_after (Headers_get "Fingerprint" (headers w)) f)
  ∧ (accepts f && accepts s = true →
       auth_header r.2 = header_after (auth_header w) s)
  ∧ (accepts f && accepts s = false → auth_header r.2 = auth_header w)
  ∧ (∀ k, lower k ≠ "fingerprint" → lower k ≠ "authorization" →
       Headers_get k (headers r.2) = Headers_get k (headers w)).
Proof.
  cbn zeta. split; [done|]. split; [done|].
  destruct (setAuthHeader_spec fp w) as (H1 & H2 & H3 & H4).
  split; [done|]. split; [done|]. split; [done|]. split; [|split; [|split]].
  - intros Hf. rewrite H4. change (lower "Fingerprint") with "fingerprint".
    rewrite decide_True by done. by rewrite Hf.
  - intros Hs. unfold auth_header. rewrite H4.
    change (lower "Authorization") with "authorization".
    rewrite decide_False by done. rewrite decide_True by done. by rewrite Hs.
  - intros Hs. unfold auth_header. rewrite H4.
    change (lower "Authorization") with "authorization".
    rewrite decide_False by done. rewrite decide_True by done. by rewrite Hs.
  - intros k Hk1 Hk2. rewrite H4. by rewrite !decide_False.
Qed.

Lemma header_after_twice o v :
  header_after (header_after o v) v = header_after o v.
Proof. by destruct v. Qed.



(** X11. [setAuthHeader] is idempotent: a second call with the same
    fingerprint returns or throws as the first did and leaves every header
    and the store as the first call left them. *)
Theorem setAuthHeader_idempotent fp w :
  let r := Fwr.setAuthHeader fp w in
  let r' := Fwr.setAuthHeader fp r.2 in
  r'.1 = r.1
  ∧ storage r'.2 = storage w
  ∧ ∀ k, Headers_get k (headers r'.2) = Headers_get k (headers r.2).
Proof.
  cbn zeta.
  destruct (setAuthHeader_spec fp w) as (H1 & H2 & H3 & H4).
  destruct (setAuthHeader_spec fp (Fwr.setAuthHeader fp w).2)
    as (H1' & H2' & H3' & H4').
  assert (Htok : token (Fwr.setAuthHeader fp w).2 = token w).
  { unfold token, getItem. by rewrite H1. }
  rewrite Htok in H3', H4'.
  split; [by rewrite H3', H3|]. split; [by rewrite H1', H1|].
  intros k. rewrite H4'. rewrite !H4.
  destruct (decide (lower k = "fingerprint")).
  - destruct (accepts (nonempty fp)); [|done]. apply header_after_twice.
  - destruct (decide (lower k = "authorization")); [|done].
    destruct (accepts (nonempty fp) && _); [|done]. apply header_after_twice.
Qed.

(* ===================================================================== *)
(** * Part XX. [FetchApi] (index.js): conversion, refresh and bounds     *)
(* ===================================================================== *)

Lemma find_truthy_upload l :
  find_truthy (λ el, is_File el || is_FileList el) l = existsb is_upload l.
Proof.
  unfold find_truthy, is_upload. induction l as [|x l IH]; [done|].
  cbn [List.find existsb].
  destruct (is_File x || is_FileList x) eqn:Hx; [|exact IH].
  by destruct x.
Qed.

Lemma truthy_Object_values b : truthy b = true → is_Some (Object_values b).
Proof. destruct b; cbn; try done; eauto. Qed.

Lemma FetchApi_encode_spec c b w :
  let converts := negb (is_FormData b) && truthy b
                  && FetchApi.convertToFormData c
                  && existsb is_upload (default [] (Object_values b)) in
  FetchApi.encode c b w
  = Some (if converts then VFormData (FetchApi.toFormData b) else b,
          if is_FormData b || converts
          then delete_header "Content-Type" w
          else set_header "Content-Type" "application/json" w).
Proof.
  cbn zeta. unfold FetchApi.encode.
  destruct (is_FormData b); cbn [negb andb orb]; [done|].
  destruct (truthy b) eqn:Ht; cbn [andb]; [|done].
  destruct (FetchApi.convertToFormData c); cbn [andb]; [|done].
  destruct (truthy_Object_values b Ht) as [vals ->].
  cbn [default from_option id]. rewrite find_truthy_upload.
  by destruct (existsb is_upload vals).
Qed.

Lemma encode_world_obs (w1 w : World) :
  w1 = delete_header "Content-Type" w
  ∨ w1 = set_header "Content-Type" "application/json" w →
  ∃ e, trace w1 = trace w ++ [e]
    ∧ fetch_entries [e] = [] ∧ requests [e] = [] ∧ token_calls [e] = 0
    ∧ auth_writes [e] = []
    ∧ storage w1 = storage w
    ∧ ∀ k, lower k ≠ "content-type" →
        Headers_get k (headers w1) = Headers_get k (headers w).
Proof.
  intros [-> | ->]; eexists; (split; [reflexivity|]);
    do 5 (split; [done|]); intros k Hk; unfold Headers_get;
    cbn [headers delete_header set_header];
    unfold Headers_delete, Headers_put.
  - by rewrite lookup_delete_ne.
  - by rewrite lookup_insert_ne.
Qed.

Lemma FetchApi_encode_obs c b w b' w1 :
  FetchApi.encode c b w = Some (b', w1) →
  ∃ e, trace w1 = trace w ++ [e]
    ∧ fetch_entries [e] = [] ∧ requests [e] = [] ∧ token_calls [e] = 0
    ∧ auth_writes [e] = []
    ∧ storage w1 = storage w
    ∧ ∀ k, lower k ≠ "content-type" →
        Headers_get k (headers w1) = Headers_get k (headers w).
Proof.
  rewrite FetchApi_encode_spec. intros [= _ <-]. apply encode_world_obs.
  destruct (_ || _); auto.
Qed.

Lemma FetchApi_fetch_unfold net n c a w :
  FetchApi.fetch net (S n) c a w =
  let w0 := emit (EvFetch a) w in
  match FetchApi.encode c (body a) w0 with
  | None => Some (Reject ExnTypeError, w0)
  | Some (b, w1) =>
      let w2 := FetchApi_sent c a b w1 in
      match net (requests (trace w1)) (FetchApi_request c a b w1) with
      | NetFail => Some (Reject ExnNetwork, w2)
      | NetOk response =>
          if ok_status response then Some (json response, w2)
          else if bool_decide (status response = 401%Z)
                  && default true (refresh a)
          then FetchApi.refreshToken (FetchApi.fetch net n c) c response
                 (url a) (default GET (method a)) b w2
          else Some (FetchApi.error response w2)
      end
  end.
Proof.
  cbn [FetchApi.fetch]. cbn zeta.
  destruct (FetchApi.encode c (body a) (emit (EvFetch a) w)) as [[b w1]|];
    [|done].
  unfold dispatch, FetchApi_sent, FetchApi_request, ok_status.
  by destruct (net _ _).
Qed.

Lemma FetchApi_fetch_once net n c a w :
  refresh a = Some false →
  FetchApi.fetch net (S n) c a w = Some (FetchApi_once net c a w).
Proof.
  intros Hr. rewrite FetchApi_fetch_unfold. unfold FetchApi_once. cbn zeta.
  destruct (FetchApi.encode c (body a) (emit (EvFetch a) w)) as [[b w1]|];
    [|done].
  destruct (net _ _) as [|response]; [done|].
  destruct (ok_status response); [done|].
  by rewrite Hr, andb_false_r.
Qed.

Lemma FetchApi_refreshToken_S net n c response u m b w :
  FetchApi.refreshToken (FetchApi.fetch net (S n) c) c response u m b w
  = Some (FetchApi_refresh net c response u m b w).
Proof.
  unfold FetchApi.refreshToken, FetchApi_refresh, FetchApi_acquire,
    store_token, token_refused, token_text, bearer, token_fetch.
  destruct (configured (FetchApi.tokenSource c)) eqn:Hc; [|done].
  assert (Hstore : ∀ tok w1,
    (if truthy tok
     then match get_member tok "accessToken" with
          | Some t =>
              match headers_set "Authorization" ("Bearer " +:+ to_string t) w1 with
              | Some w2 =>
                  FetchApi.fetch net (S n) c (mkArgs u (Some m) b (Some false) ∅)
                    (setItem "accessToken" (to_string t) w2)
              | None => Some (Reject ExnTypeError, w1)
              end
          | None => Some (Reject ExnTypeError, w1)
          end
     else FetchApi.fetch net (S n) c (mkArgs u (Some m) b (Some false) ∅) w1)
    = Some (if truthy tok
               && negb (is_header_value
                    (normalize ("Bearer " +:+ to_string
                       (default VUndefined (get_member tok "accessToken")))))
            then (Reject ExnTypeError, w1)
            else FetchApi_once net c (mkArgs u (Some m) b (Some false) ∅)
                   (if truthy tok
                    then setItem "accessToken"
                           (to_string (default VUndefined
                                         (get_member tok "accessToken")))
                           (set_header "Authorization"
                              (normalize ("Bearer " +:+ to_string
                                 (default VUndefined
                                    (get_member tok "accessToken")))) w1)
                    else w1))).
  { intros tok w1. destruct (truthy tok) eqn:Ht; cbn [andb].
    - destruct (truthy_get_member tok "accessToken" Ht) as [t ->].
      cbn [default from_option id]. rewrite headers_set_authorization.
      destruct (is_header_value _); cbn [negb]; [|done].
      by rewrite FetchApi_fetch_once.
    - by rewrite FetchApi_fetch_once. }
  destruct (FetchApi.tokenSource c) as [[p|f]|]; [| |by simpl in Hc].
  - rewrite FetchApi_fetch_once by done.
    destruct (FetchApi_once net c _ w) as [[tok|e] w1]; [|done].
    apply Hstore.
  - destruct (f (trace w)) as [tok|e]; [|done]. apply Hstore.
Qed.

Lemma FetchApi_fetch_settle net n c a w :
  FetchApi.fetch net (S (S n)) c a w = Some (FetchApi_settle net c a w).
Proof.
  rewrite FetchApi_fetch_unfold. unfold FetchApi_settle. cbn zeta.
  destruct (FetchApi.encode c (body a) (emit (EvFetch a) w)) as [[b w1]|];
    [|done].
  destruct (net _ _) as [|response]; [done|].
  destruct (ok_status response); [done|].
  destruct (_ && _); [|done]. apply FetchApi_refreshToken_S.
Qed.

Lemma FetchApi_error_cases resp w :
  (FetchApi.error resp w).2 = w
  ∧ ∃ e, (FetchApi.error resp w).1 = Reject e
    ∧ (∀ props, body_json resp = Some (VObj props) →
         e = error_record "fields" resp props)
    ∧ (body_json resp = None → e = ExnBody)
    ∧ (body_json resp = Some VNull ∨ body_json resp = Some VUndefined →
         e = ExnTypeError).
Proof.
  split; [apply FetchApi_error_is_reject|]. unfold FetchApi.error.
  destruct (body_json resp) as [err|].
  2:{ eexists. split; [done|]. split; [done|]. split; [done|]. by intros [|]. }
  destruct err as [| | | | | |ps| | |]; cbn [get_member fst]; eexists;
    (split; [done|]);
    (split; [intros props' [= <-] || intros props' [=]|]); try done;
    (split; [done|]); try (by intros [[=]|[=]]); done.
Qed.

Lemma FetchApi_once_obs net c a w :
  ∃ e r,
    trace (FetchApi_once net c a w).2 = trace w ++ [EvFetch a; e; EvRequest r]
    ∧ fetch_entries [e] = [] ∧ requests [e] = [] ∧ token_calls [e] = 0
    ∧ auth_writes [e] = []
    ∧ req_url r = FetchApi.baseUrl c +:+ url a
    ∧ storage (FetchApi_once net c a w).2 = storage w
    ∧ auth_header (FetchApi_once net c a w).2 = auth_header w.
Proof.
  unfold FetchApi_once. cbn zeta.
  destruct (FetchApi.encode c (body a) (emit (EvFetch a) w)) as [[b w1]|] eqn:He.
  2:{ by rewrite FetchApi_encode_spec in He. }
  destruct (FetchApi_encode_obs _ _ _ _ _ He) as (e & Htr & H1 & H2 & H3 & H4 & Hst & Hk).
  exists e, (FetchApi_request c a b w1).
  assert (Hw2 : trace (FetchApi_sent c a b w1)
                = trace w ++ [EvFetch a; e; EvRequest (FetchApi_request c a b w1)]
              ∧ storage (FetchApi_sent c a b w1) = storage w
              ∧ auth_header (FetchApi_sent c a b w1) = auth_header w).
  { unfold FetchApi_sent, auth_header. cbn [trace storage headers emit].
    rewrite Htr, Hst. cbn [trace storage emit]. rewrite <- !app_assoc.
    split; [done|]. split; [done|]. by rewrite Hk. }
  destruct Hw2 as (Ht2 & Hs2 & Ha2).
  destruct (net _ _) as [|response]; [done|].
  destruct (ok_status response); [done|].
  destruct (FetchApi_error_cases response (FetchApi_sent c a b w1)) as [-> _].
  done.
Qed.

Lemma FetchApi_acquire_obs net c w :
  configured (FetchApi.tokenSource c) = true →
  ∃ t, trace (FetchApi_acquire net c w).2 = trace w ++ t
    ∧ fetch_entries t = acquisition_entries (FetchApi.tokenSource c)
    ∧ length (requests t) + token_calls t = 1
    ∧ auth_writes t = []
    ∧ (∀ a, Forall (λ r, req_url r ∈ allowed_urls (FetchApi.baseUrl c)
                                       (FetchApi.tokenSource c) a)
                   (requests t))
    ∧ storage (FetchApi_acquire net c w).2 = storage w
    ∧ auth_header (FetchApi_acquire net c w).2 = auth_header w.
Proof.
  intros Hc. unfold FetchApi_acquire.
  destruct (FetchApi.tokenSource c) as [[p|f]|]; [| |by simpl in Hc].
  - destruct (FetchApi_once_obs net c (token_fetch p) w)
      as (e & r & Htr & H1 & H2 & H3 & H4 & Hu & Hs & Ha).
    exists [EvFetch (token_fetch p); e; EvRequest r].
    split; [done|].
    change [EvFetch (token_fetch p); e; EvRequest r]
      with ([EvFetch (token_fetch p)] ++ [e] ++ [EvRequest r]).
    rewrite !fetch_entries_app, !requests_app, !token_calls_app,
      !auth_writes_app, H1, H2, H3, H4.
    split; [done|]. split; [done|]. split; [done|].
    split; [|done]. intros a. cbn. constructor; [|constructor].
    rewrite Hu. apply allowed_token.
  - exists [EvTokenCall]. cbn [snd]. split; [done|]. split; [done|].
    split; [done|]. split; [done|]. split; [|done]. intros a. constructor.
Qed.

Lemma FetchApi_refresh_obs net c resp a b w :
  ∃ t, trace (FetchApi_refresh net c resp (url a) (default GET (method a))
                b w).2 = trace w ++ t
    ∧ length (requests t) + token_calls t ≤ 2
    ∧ length (fetch_entries t) ≤ 2
    ∧ Forall (λ x, refresh x = Some false) (fetch_entries t)
    ∧ Forall (λ r, req_url r ∈ allowed_urls (FetchApi.baseUrl c)
                                 (FetchApi.tokenSource c) a)
             (requests t).
Proof.
  unfold FetchApi_refresh.
  destruct (configured (FetchApi.tokenSource c)) eqn:Hc.
  2:{ destruct (FetchApi_error_cases resp (removeItem "accessToken" w)) as [-> _].
      exists [EvStoreRemove "accessToken"]. split; [done|]. cbn.
      split; [lia|]. split; [lia|]. split; constructor. }
  destruct (FetchApi_acquire_obs net c w Hc)
    as (t1 & Htr & Hf & Hn & _ & Hall & _).
  assert (Hfalse : Forall (λ x, refresh x = Some false) (fetch_entries t1)).
  { rewrite Hf. unfold acquisition_entries.
    by repeat case_match; repeat constructor. }
  assert (Hlen : length (fetch_entries t1) ≤ 1).
  { rewrite Hf. unfold acquisition_entries. repeat case_match; cbn; lia. }
  assert (Hstop : ∀ w3, trace w3 = trace w ++ t1 →
    ∃ t, trace w3 = trace w ++ t
      ∧ length (requests t) + token_calls t ≤ 2
      ∧ length (fetch_entries t) ≤ 2
      ∧ Forall (λ x, refresh x = Some false) (fetch_entries t)
      ∧ Forall (λ r, req_url r ∈ allowed_urls (FetchApi.baseUrl c)
                                   (FetchApi.tokenSource c) a)
               (requests t)).
  { intros w3 H3. exists t1. split; [done|]. split; [lia|]. split; [lia|].
    split; [done|]. apply Hall. }
  destruct (FetchApi_acquire net c w) as [[tok|e] w1]; cbn [snd] in Htr.
  2:{ destruct (FetchApi_error_cases resp w1) as [-> _]. by apply Hstop. }
  destruct (token_refused tok); [by apply Hstop|].
  set (a' := mkArgs (url a) (Some (default GET (method a))) b (Some false) ∅).
  destruct (FetchApi_once_obs net c a' (store_token tok w1))
    as (e & r & Htr2 & H1 & H2 & H3 & H4 & Hu & _).
  destruct (store_token_events_obs tok) as (Hse & Hsr & Hsc).
  exists (t1 ++ store_token_events tok ++ [EvFetch a'] ++ [e] ++ [EvRequest r]).
  split.
  { rewrite Htr2, store_token_trace, Htr. by rewrite <- !app_assoc. }
  rewrite !fetch_entries_app, !requests_app, !token_calls_app, !length_app.
  rewrite H1, H2, H3, Hse, Hsr, Hsc. cbn [length app fetch_entries requests token_calls].
  split; [lia|]. split; [lia|].
  split.
  { apply Forall_app. split; [done|]. by repeat constructor. }
  apply Forall_app. split; [apply Hall|].
  constructor; [|constructor]. rewrite Hu.
  exact (allowed_own (FetchApi.baseUrl c) (FetchApi.tokenSource c) a).
Qed.

Lemma FetchApi_settle_bounded net c a w :
  ∃ res w' t es,
    FetchApi_settle net c a w = (res, w')
    ∧ trace w' = trace w ++ t
    ∧ 1 ≤ length (requests t)
    ∧ length (requests t) + token_calls t ≤ 3
    ∧ fetch_entries t = a :: es
    ∧ length es ≤ 2
    ∧ Forall (λ x, refresh x = Some false) es
    ∧ Forall (λ r, req_url r ∈ allowed_urls (FetchApi.baseUrl c)
                                 (FetchApi.tokenSource c) a)
             (requests t).
Proof.
  unfold FetchApi_settle. cbn zeta.
  destruct (FetchApi.encode c (body a) (emit (EvFetch a) w)) as [[b w1]|] eqn:He.
  2:{ by rewrite FetchApi_encode_spec in He. }
  destruct (FetchApi_encode_obs _ _ _ _ _ He)
    as (e & Htr & H1 & H2 & H3 & _ & _ & _).
  set (r := FetchApi_request c a b w1).
  assert (Ht2 : trace (FetchApi_sent c a b w1)
                = trace w ++ [EvFetch a; e; EvRequest r]).
  { unfold FetchApi_sent. cbn [trace emit]. rewrite Htr. cbn [trace emit].
    by rewrite <- !app_assoc. }
  assert (Hobs : fetch_entries [EvFetch a; e; EvRequest r] = [a]
                 ∧ requests [EvFetch a; e; EvRequest r] = [r]
                 ∧ token_calls [EvFetch a; e; EvRequest r] = 0).
  { change [EvFetch a; e; EvRequest r]
      with ([EvFetch a] ++ [e] ++ [EvRequest r]).
    by rewrite !fetch_entries_app, !requests_app, !token_calls_app, H1, H2, H3. }
  destruct Hobs as (Hf & Hr & Hc).
  pose proof (allowed_own (FetchApi.baseUrl c) (FetchApi.tokenSource c) a)
    as Hown.
  assert (Hone : ∀ res : Completion Value, ∃ res' w' t es,
    (res, FetchApi_sent c a b w1) = (res', w')
    ∧ trace w' = trace w ++ t
    ∧ 1 ≤ length (requests t)
    ∧ length (requests t) + token_calls t ≤ 3
    ∧ fetch_entries t = a :: es
    ∧ length es ≤ 2
    ∧ Forall (λ x, refresh x = Some false) es
    ∧ Forall (λ r, req_url r ∈ allowed_urls (FetchApi.baseUrl c)
                                 (FetchApi.tokenSource c) a)
             (requests t)).
  { intros res. exists res, (FetchApi_sent c a b w1),
      [EvFetch a; e; EvRequest r], [].
    rewrite Hf, Hr, Hc. cbn [length].
    split; [done|]. split; [done|]. split; [lia|].
    split; [lia|]. split; [done|]. split; [lia|]. split; [constructor|].
    constructor; [exact Hown|constructor]. }
  destruct (net _ _) as [|response]; [apply Hone|].
  destruct (ok_status response); [apply Hone|].
  destruct (_ && _).
  2:{ destruct (FetchApi_error_cases response (FetchApi_sent c a b w1))
        as (Hw & e0 & He0 & _).
      rewrite (surjective_pairing (FetchApi.error _ _)), Hw, He0. apply Hone. }
  destruct (FetchApi_refresh_obs net c response a b (FetchApi_sent c a b w1))
    as (t & Htr' & Hn & Hl & Hfl & Hall).
  destruct (FetchApi_refresh net c response (url a) (default GET (method a)) b
              (FetchApi_sent c a b w1)) as [res w'].
  cbn [snd] in Htr'.
  exists res, w', ([EvFetch a; e; EvRequest r] ++ t), (fetch_entries t).
  split; [done|]. split.
  { rewrite Htr', Ht2. by rewrite <- app_assoc. }
  rewrite !fetch_entries_app, !requests_app, !token_calls_app, !length_app.
  rewrite Hf, Hr, Hc. cbn [length app].
  split; [lia|]. split; [lia|]. split; [done|]. split; [done|].
  split; [done|]. constructor; [exact Hown|done].
Qed.

(** X12. The [fetch] of index.js settles and is bounded, for every
    client, call, world and transport: every budget of at least two gives
    the result of budget two, and [baseQuery] wraps that result as [{data}]
    or [{error}] without rejecting; the call sends at least one and,
    together with the calls of the token callable, at most three requests,
    enters [fetch] at most three times, every entry after the first has
    refresh=false, and every request goes to the url of the call or to the
    token path. In particular the body-encoding stage never raises the
    TypeError of [Object.values]. *)
Theorem FetchApi_fetch_bounded net n c a w :
  ∃ res w' t es,
    FetchApi.fetch net (S (S n)) c a w = Some (res, w')
    ∧ FetchApi.fetch net 2 c a w = Some (res, w')
    ∧ FetchApi.baseQuery net (S (S n)) c a w
      = Some (match res with
              | Resolve v => QData v
              | Reject e => QError e
              end, w')
    ∧ trace w' = trace w ++ t
    ∧ 1 ≤ length (requests t)
    ∧ length (requests t) + token_calls t ≤ 3
    ∧ fetch_entries t = a :: es
    ∧ length es ≤ 2
    ∧ Forall (λ x, refresh x = Some false) es
    ∧ Forall (λ r, req_url r ∈ allowed_urls (FetchApi.baseUrl c)
                                 (FetchApi.tokenSource c) a)
             (requests t).
Proof.
  destruct (FetchApi_settle_bounded net c a w) as (res & w' & t & es & Hs & H).
  exists res, w', t, es. unfold FetchApi.baseQuery.
  rewrite !FetchApi_fetch_settle, Hs.
  split; [done|]. split; [done|]. split; [by destruct res|]. exact H.
Qed.

Lemma FetchApi_settle_401 net c a w b w1 resp :
  FetchApi.encode c (body a) (emit (EvFetch a) w) = Some (b, w1) →
  net (requests (trace w)) (FetchApi_request c a b w1) = NetOk resp →
  status resp = 401%Z →
  default true (refresh a) = true →
  FetchApi_settle net c a w
  = FetchApi_refresh net c resp (url a) (default GET (method a)) b
      (FetchApi_sent c a b w1).
Proof.
  intros He Hnet Hst Hr. unfold FetchApi_settle. cbn zeta. rewrite He.
  destruct (FetchApi_encode_world _ _ _ _ _ He) as [_ Hreq].
  rewrite Hreq. cbn [trace emit]. rewrite requests_app. cbn [requests].
  rewrite app_nil_r, Hnet, (not_ok_401 _ Hst), Hst, Hr.
  by rewrite bool_decide_eq_true_2.
Qed.

Lemma FetchApi_sent_obs c a w b w1 :
  FetchApi.encode c (body a) (emit (EvFetch a) w) = Some (b, w1) →
  ∃ e, trace (FetchApi_sent c a b w1)
       = trace w ++ [EvFetch a; e; EvRequest (FetchApi_request c a b w1)]
    ∧ fetch_entries [EvFetch a; e; EvRequest (FetchApi_request c a b w1)] = [a]
    ∧ requests [EvFetch a; e; EvRequest (FetchApi_request c a b w1)]
      = [FetchApi_request c a b w1]
    ∧ token_calls [EvFetch a; e; EvRequest (FetchApi_request c a b w1)] = 0
    ∧ auth_writes [EvFetch a; e; EvRequest (FetchApi_request c a b w1)] = []
    ∧ storage (FetchApi_sent c a b w1) = storage w
    ∧ auth_header (FetchApi_sent c a b w1) = auth_header w.
Proof.
  intros He.
  destruct (FetchApi_encode_obs _ _ _ _ _ He)
    as (e & Htr & H1 & H2 & H3 & H4 & Hst & Hk).
  exists e. split.
  { unfold FetchApi_sent. cbn [trace emit]. rewrite Htr. cbn [trace emit].
    by rewrite <- !app_assoc. }
  change [EvFetch a; e; EvRequest (FetchApi_request c a b w1)]
    with ([EvFetch a] ++ [e] ++ [EvRequest (FetchApi_request c a b w1)]).
  rewrite !fetch_entries_app, !requests_app, !token_calls_app, !auth_writes_app,
    H1, H2, H3, H4.
  do 4 (split; [done|]). unfold FetchApi_sent, auth_header.
  cbn [storage headers emit]. rewrite Hst. split; [done|]. by rewrite Hk.
Qed.

(** X13. [refreshToken] of index.js, failed token acquisition: when the
    token request (or the token callable) rejects, the call rejects with
    the error of the original 401 response, [{status, message, fields}]
    read from its body, and not with a message of its own; the original
    request is not re-issued, and neither the store nor the Authorization
    header is written. *)
Theorem FetchApi_failed_refresh_original_error net n c a w b w1 resp e w3 :
  FetchApi.encode c (body a) (emit (EvFetch a) w) = Some (b, w1) →
  net (requests (trace w)) (FetchApi_request c a b w1) = NetOk resp →
  status resp = 401%Z →
  default true (refresh a) = true →
  configured (FetchApi.tokenSource c) = true →
  FetchApi_acquire net c (FetchApi_sent c a b w1) = (Reject e, w3) →
  ∃ err t,
    FetchApi.fetch net (S (S n)) c a w = Some (Reject err, w3)
    ∧ (FetchApi.error resp w3).1 = Reject err
    ∧ (∀ props, body_json resp = Some (VObj props) →
         err = error_record "fields" resp props)
    ∧ (body_json resp = None → err = ExnBody)
    ∧ trace w3 = trace w ++ t
    ∧ fetch_entries t = a :: acquisition_entries (FetchApi.tokenSource c)
    ∧ auth_writes t = []
    ∧ storage w3 = storage w
    ∧ auth_header w3 = auth_header w.
Proof.
  intros He Hnet Hst Hr Hc Hacq.
  rewrite FetchApi_fetch_settle, (FetchApi_settle_401 net c a w b w1 resp) by done.
  unfold FetchApi_refresh. rewrite Hc.
  destruct (FetchApi_acquire_obs net c (FetchApi_sent c a b w1) Hc)
    as (t1 & Htr & Hf & _ & Haw & _ & Hs & Ha).
  rewrite Hacq in *. cbn [snd] in *.
  destruct (FetchApi_error_cases resp w3) as (Hw & err & Herr & Hp & Hb & _).
  destruct (FetchApi_sent_obs c a w b w1 He)
    as (e0 & Ht0 & Hf0 & _ & _ & Ha0 & Hs0 & Hh0).
  exists err,
    ([EvFetch a; e0; EvRequest (FetchApi_request c a b w1)] ++ t1).
  split. { by rewrite (surjective_pairing (FetchApi.error _ _)), Hw, Herr. }
  split; [done|]. split; [done|]. split; [done|]. split.
  { rewrite Htr, Ht0. by rewrite <- app_assoc. }
  rewrite fetch_entries_app, auth_writes_app, Hf0, Ha0, Hf, Haw.
  split; [done|]. split; [done|]. split; [by rewrite Hs|by rewrite Ha].
Qed.

Lemma FetchApi_failed_refresh_original_error_witness :
  ∃ w',
    FetchApi.fetch Scenario.refresh_fails 2 Scenario.api_client
      Scenario.get_items (Scenario.fresh ∅)
    = Some (Reject (ExnValue (VObj [("status", VNum 401);
                                    ("message", VStr "Unauthorized");
                                    ("fields", VUndefined)])), w')
    ∧ fetch_entries (trace w') = [Scenario.get_items; token_fetch "/refresh"].
Proof.
  destruct (FetchApi_acquire Scenario.refresh_fails Scenario.api_client
              (FetchApi_sent Scenario.api_client Scenario.get_items VUndefined
                 (json_entry Scenario.get_items (Scenario.fresh ∅))))
    as [[tok|e] w3] eqn:Hacq; [vm_compute in Hacq; discriminate Hacq|].
  destruct (FetchApi_failed_refresh_original_error Scenario.refresh_fails 0
              Scenario.api_client Scenario.get_items (Scenario.fresh ∅)
              VUndefined (json_entry Scenario.get_items (Scenario.fresh ∅))
              (mkResponse 401 (Some (VObj [("message", VStr "Unauthorized")])))
              e w3 eq_refl eq_refl eq_refl eq_refl eq_refl Hacq)
    as (err & t & Hrun & _ & Hrec & _ & Htr & Hf & _).
  exists w3. split.
  - rewrite Hrun. by rewrite (Hrec _ eq_refl).
  - rewrite Htr. exact Hf.
Defined.








(* ===================================================================== *)
(** * Part XXI. [toFormData] on any object, and the constructor of index.js *)
(* ===================================================================== *)

Lemma toFormData_loop_any props fd js :
  foldl toFormData_step (fd, js) props
  = (fd ++ file_fields props,
     foldl (λ acc kv, obj_put acc kv.1 kv.2) js (json_part props)).
Proof.
  revert fd js. induction props as [|[k v] l IH]; intros fd js.
  - by rewrite app_nil_r.
  - cbn [foldl]. rewrite toFormData_step_spec, IH.
    unfold file_fields, json_part. cbn [flat_map List.filter snd].
    rewrite <- app_assoc. by destruct (is_file_value v).
Qed.

Lemma toFormData_of_props data :
  toFormData data
  = ("serialized-json",
     FEString ("{" +:+ members_text true (obj_of_members (json_part (for_in data)))
               +:+ "}"))
    :: file_fields (for_in data).
Proof.
  unfold toFormData. rewrite toFormData_loop_any. cbn [app].
  unfold JSON_stringify. rewrite stringify_obj.
  unfold FormData_append. cbn [app form_entry to_string].
  by rewrite foldl_snoc.
Qed.

Lemma file_items_fields (h : nat → Value → string * Value)
    (g : nat → string) fs :
  (∀ i x, h i x = (g i, x)) →
  file_fields (imap h (VFile <$> fs)) = imap (λ i f, (g i, FEFile f)) fs
  ∧ json_part (imap h (VFile <$> fs)) = [].
Proof.
  revert h g. induction fs as [|f fs IH]; intros h g Hh; [done|].
  cbn [fmap list_fmap imap]. unfold file_fields, json_part.
  rewrite Hh.
  cbn [flat_map List.filter fields_of snd fst is_file_value is_File orb negb app].
  destruct (IH (h ∘ S) (g ∘ S)) as [H1 H2]; [by intros i x; apply Hh|].
  unfold file_fields, json_part in H1, H2. split.
  - f_equal. exact H1.
  - exact H2.
Qed.

(** X16. [toFormData(data)] for every object and every array, whatever
    their values are: the first field is [serialized-json] and holds the
    JSON text of the object built from the keys whose values are not file
    values; the fields of the file values follow in key order. For an
    array the keys are the indices, so an array of files gives the field
    [serialized-json] with the text of the empty object and one field per
    file under its index; [undefined] and [null] give the single field
    [serialized-json]. The method has the same text in both [FetchApi]
    variants. *)
Theorem toFormData_shape :
  (∀ props,
     FetchApi.toFormData (VObj props)
     = ("serialized-json",
        FEString (default "" (Json.stringify
                    (VObj (obj_of_members (json_part props))))))
       :: file_fields props)
  ∧ (∀ items,
       FetchApi.toFormData (VArr items)
       = ("serialized-json",
          FEString (default "" (Json.stringify
                      (VObj (obj_of_members (json_part (index_keys items)))))))
         :: file_fields (index_keys items))
  ∧ (∀ fs,
       FetchApi.toFormData (VArr (VFile <$> fs))
       = ("serialized-json", FEString "{}")
         :: imap (λ i f, (pretty i, FEFile f)) fs)
  ∧ (∀ data, FetchApiTs.toFormData data = FetchApi.toFormData data)
  ∧ FetchApi.toFormData VUndefined = [("serialized-json", FEString "{}")]
  ∧ FetchApi.toFormData VNull = [("serialized-json", FEString "{}")].
Proof.
  unfold FetchApi.toFormData, FetchApiTs.toFormData.
  split; [|split; [|split; [|split; [done|split; reflexivity]]]].
  - intros props. by rewrite toFormData_of_props, stringify_obj.
  - intros items. by rewrite toFormData_of_props, stringify_obj.
  - intros fs. rewrite toFormData_of_props. unfold for_in.
    cbn [own_props default from_option id]. unfold index_keys.
    destruct (file_items_fields (λ i x, (pretty i, x)) pretty fs) as [-> ->];
      [done|]. reflexivity.
Qed.

(** X17. The constructor of index.js. The form with a base url and the
    form with a configuration object build the same client from the same
    data, and an empty configuration object builds the default client
    (base url [/], no token source, no conversion). When fetch options are
    supplied the stored record is those options with the [headers] key
    defaulting to the client's header collection: the default policy is
    not merged in; when none are supplied the record is the default policy
    (credentials [include], cache [no-cache], mode [cors]) with the
    client's header collection. *)
Theorem FetchApi_constructor_forms :
  (∀ base ts hs o cv,
     FetchApi.constructor
       (FetchApi.ByUrl base ts (Some (FetchApi.mkCtorOptions hs o cv)))
     = FetchApi.constructor
         (FetchApi.ByConfig (FetchApi.mkConfig (Some base) hs o ts cv)))
  ∧ (∀ base ts,
       FetchApi.constructor (FetchApi.ByUrl base ts None)
       = FetchApi.constructor
           (FetchApi.ByConfig (FetchApi.mkConfig (Some base) None None ts None)))
  ∧ FetchApi.constructor
      (FetchApi.ByConfig (FetchApi.mkConfig None None None None None))
    = FetchApi.constructor FetchApi.ByDefault
  ∧ (∀ arg,
       let c := (FetchApi.constructor arg).1 in
       let supplied :=
         match arg with
         | FetchApi.ByUrl _ _ opts => opts ≫= FetchApi.o_options
         | FetchApi.ByConfig cfg => FetchApi.cfg_options cfg
         | FetchApi.ByDefault => None
         end in
       match supplied with
       | Some o =>
           FetchApi.options c !! "headers"
           = Some (default ILiveHeaders (o !! "headers"))
           ∧ ∀ k, k ≠ "headers" → FetchApi.options c !! k = o !! k
       | None =>
           FetchApi.options c !! "headers" = Some ILiveHeaders
           ∧ FetchApi.options c !! "credentials" = Some (IVal (VStr "include"))
           ∧ FetchApi.options c !! "cache" = Some (IVal (VStr "no-cache"))
           ∧ FetchApi.options c !! "mode" = Some (IVal (VStr "cors"))
       end).
Proof.
  split; [done|]. split; [done|]. split; [done|].
  intros arg. cbn zeta.
  assert (Hwith : ∀ o : RequestInit,
            FetchApi.with_headers o !! "headers"
            = Some (default ILiveHeaders (o !! "headers"))
            ∧ ∀ k, k ≠ "headers" → FetchApi.with_headers o !! k = o !! k).
  { intros o. unfold FetchApi.with_headers. split.
    - destruct (o !! "headers") as [v|] eqn:Ho.
      + by erewrite lookup_union_Some_l.
      + rewrite lookup_union_r by done. apply lookup_singleton_eq.
    - intros k Hk. destruct (o !! k) as [v|] eqn:Ho.
      + by erewrite lookup_union_Some_l.
      + rewrite lookup_union_r by done. by apply lookup_singleton_ne. }
  assert (Hdef : FetchApi.with_headers defaultOptions !! "headers"
                 = Some ILiveHeaders
               ∧ FetchApi.with_headers defaultOptions !! "credentials"
                 = Some (IVal (VStr "include"))
               ∧ FetchApi.with_headers defaultOptions !! "cache"
                 = Some (IVal (VStr "no-cache"))
               ∧ FetchApi.with_headers defaultOptions !! "mode"
                 = Some (IVal (VStr "cors"))).
  { destruct (Hwith defaultOptions) as [H1 H2].
    rewrite H1, !H2 by done. by vm_compute. }
  destruct arg as [base ts opts|cfg|]; cbn [FetchApi.constructor fst FetchApi.options].
  - destruct (opts ≫= FetchApi.o_options) as [o|]; [apply Hwith|apply Hdef].
  - destruct (FetchApi.cfg_options cfg) as [o|]; [apply Hwith|apply Hdef].
  - apply Hdef.
Qed.

(* ===================================================================== *)
(** * Part XXII. The TypeScript [FetchApi]                               *)
(* ===================================================================== *)

Lemma refreshToken_ext (f g : FetchArgs → World → Outcome) c u m b w :
  (∀ a w, f a w = g a w) →
  FetchApiTs.refreshToken f c u m b w
  = Fwr.refreshToken g (as_Fwr c) u m b w.
Proof.
  intros Hfg. unfold FetchApiTs.refreshToken, Fwr.refreshToken, as_Fwr.
  cbn [Fwr.tokenSource].
  destruct (configured (FetchApiTs.tokenSource c)); [|done].
  assert (Hrest : ∀ acquired : Outcome,
    match acquired with
    | Some (Resolve token, w1) =>
        if truthy token
        then match get_member token "accessToken" with
             | Some t =>
                 match headers_set "Authorization" ("Bearer " +:+ to_string t) w1 with
                 | Some w2 =>
                     f (mkArgs u (Some m) b (Some false) ∅)
                       (setItem "accessToken" (to_string t) w2)
                 | None => Some (Reject ExnTypeError, w1)
                 end
             | None => Some (Reject ExnTypeError, w1)
             end
        else f (mkArgs u (Some m) b (Some false) ∅) w1
    | Some (Reject _, w1) =>
        Some (Reject (ExnValue (VObj [("message", VStr "Failed to get token")])),
              w1)
    | None => None
    end
    = match acquired with
      | Some (Resolve token, w1) =>
          if truthy token
          then match get_member token "accessToken" with
               | Some t =>
                   match headers_set "Authorization" ("Bearer " +:+ to_string t) w1 with
                   | Some w2 =>
                       g (mkArgs u (Some m) b (Some false) ∅)
                         (setItem "accessToken" (to_string t) w2)
                   | None => Some (Reject ExnTypeError, w1)
                   end
               | None => Some (Reject ExnTypeError, w1)
               end
          else g (mkArgs u (Some m) b (Some false) ∅) w1
      | Some (Reject _, w1) =>
          Some (Reject (ExnValue (VObj [("message", VStr "Failed to get token")])),
                w1)
      | None => None
      end).
  { intros [[[tok|e] w1]|]; try done.
    destruct (truthy tok); [|apply Hfg].
    destruct (get_member tok "accessToken"); [|done].
    destruct (headers_set _ _ _); [apply Hfg|done]. }
  destruct (FetchApiTs.tokenSource c) as [[p|h]|].
  - rewrite Hfg.
    exact (Hrest (g (mkArgs p (Some GET) VUndefined (Some false) ∅) w)).
  - exact (Hrest (Some (h (trace w), emit EvTokenCall w))).
  - exact (Hrest (Some (Reject ExnTypeError, w))).
Qed.

Lemma FetchApiTs_encode_off c b w :
  FetchApiTs.convertToFormdata c = false →
  FetchApiTs.encode c b w = Some (b, Fwr.encode b w).
Proof.
  intros Hc. unfold FetchApiTs.encode, Fwr.encode. rewrite Hc.
  by destruct (is_FormData b).
Qed.

Lemma FetchApiTs_fetch_off net n c :
  FetchApiTs.convertToFormdata c = false →
  ∀ a w, FetchApiTs.fetch net n c a w = Fwr.fetch net n (as_Fwr c) a w.
Proof.
  intros Hc. induction n as [|n IH]; intros a w; [done|].
  cbn [FetchApiTs.fetch Fwr.fetch]. cbn zeta.
  rewrite FetchApiTs_encode_off by done.
  unfold as_Fwr at 1 2 3. cbn [Fwr.options Fwr.baseUrl Fwr.tokenSource].
  destruct (dispatch net _ _ _) as [[|response] w2]; [done|].
  destruct (_ || _); [done|]. destruct (_ && _); [|done].
  destruct (configured (FetchApiTs.tokenSource c)); [|done].
  by apply refreshToken_ext.
Qed.

(** X18. The TypeScript [FetchApi] with [convertToFormdata] off is
    [Fwr]: for every budget, call, world and transport, [fetch], the four
    shorthands and [baseQuery] settle exactly as those of the [Fwr] client
    with the same base url, token source and options, with the same
    effects; and the constructors build that same client. *)
Theorem FetchApiTs_without_conversion_is_Fwr net n c :
  FetchApiTs.convertToFormdata c = false →
  (∀ a w, FetchApiTs.fetch net n c a w = Fwr.fetch net n (as_Fwr c) a w)
  ∧ (∀ u w, FetchApiTs.get net n c u w = Fwr.get net n (as_Fwr c) u w)
  ∧ (∀ u b w, FetchApiTs.post net n c u b w = Fwr.post net n (as_Fwr c) u b w)
  ∧ (∀ u b w, FetchApiTs.patch net n c u b w
              = Fwr.patch net n (as_Fwr c) u b w)
  ∧ (∀ u w, FetchApiTs.delete net n c u w = Fwr.delete net n (as_Fwr c) u w)
  ∧ (∀ a w, FetchApiTs.baseQuery net n c a w
            = Fwr.baseQuery net n (as_Fwr c) a w)
  ∧ (∀ base ts hs o,
       as_Fwr (FetchApiTs.constructor base ts
                 (Some (FetchApiTs.mkCtorOptions hs o false))).1
       = (Fwr.constructor base ts (Some (Fwr.mkCtorOptions hs o))).1
       ∧ as_Fwr (FetchApiTs.constructor base ts None).1
         = (Fwr.constructor base ts None).1).
Proof.
  intros Hc. pose proof (FetchApiTs_fetch_off net n c Hc) as H.
  split; [exact H|].
  unfold FetchApiTs.get, FetchApiTs.post, FetchApiTs.patch, FetchApiTs.delete,
    FetchApiTs.baseQuery, Fwr.get, Fwr.post, Fwr.patch, Fwr.delete,
    Fwr.baseQuery.
  split; [by intros; rewrite H|]. split; [by intros; rewrite H|].
  split; [by intros; rewrite H|]. split; [by intros; rewrite H|].
  split; [by intros; rewrite H|]. done.
Qed.

Lemma FetchApiTs_without_conversion_is_Fwr_witness :
  FetchApiTs.fetch Scenario.refresh_succeeds 2 Scenario.ts_client
    Scenario.get_items (Scenario.fresh ∅)
  = Fwr.fetch Scenario.refresh_succeeds 2 Scenario.fwr_client
      Scenario.get_items (Scenario.fresh ∅).
Proof.
  exact (proj1 (FetchApiTs_without_conversion_is_Fwr Scenario.refresh_succeeds
                  2 Scenario.ts_client eq_refl)
               Scenario.get_items (Scenario.fresh ∅)).
Defined.

(** X19. The TypeScript [FetchApi] with [convertToFormdata] on and a path
    as token source: the token request of [refreshToken] has no body, so
    [Object.values] raises its TypeError before any request is sent, and
    the catch turns it into "Failed to get token". A 401 is therefore
    never recovered: the call rejects after its single request, the
    original request is not re-issued, and neither the store nor the
    Authorization header is written. *)
Theorem FetchApiTs_conversion_breaks_token_path net n c a w b w1 resp p :
  FetchApiTs.convertToFormdata c = true →
  FetchApiTs.tokenSource c = Some (TSPath p) →
  truthy (VStr p) = true →
  FetchApiTs.encode c (body a) (emit (EvFetch a) w) = Some (b, w1) →
  net (requests (trace w)) (FetchApiTs_request c a b w1) = NetOk resp →
  status resp = 401%Z →
  default true (refresh a) = true →
  ∃ w',
    FetchApiTs.fetch net (S (S n)) c a w
    = Some (Reject failed_to_get_token, w')
    ∧ fetch_entries (trace w') = fetch_entries (trace w) ++ [a; token_fetch p]
    ∧ length (requests (trace w')) = S (length (requests (trace w)))
    ∧ storage w' = storage w
    ∧ auth_header w' = auth_header w.
Proof.
  intros Hcv Hts Hp He Hnet Hst Hr.
  assert (Hq1 : requests (trace w1) = requests (trace w)).
  { unfold FetchApiTs.encode in He. rewrite Hcv in He.
    destruct (Object_values (body a)); [|done].
    destruct (find_truthy is_File l); injection He as <- <-;
      cbn [trace emit delete_header set_header];
      rewrite !requests_app; cbn [requests]; by rewrite !app_nil_r. }
  unfold FetchApiTs_request in Hnet. cbn zeta in Hnet.
  cbn [FetchApiTs.fetch]. cbn zeta. rewrite He. unfold dispatch.
  rewrite Hq1, Hnet, Hst, Hr. cbn [orb andb bool_decide decide_rel].
  rewrite !bool_decide_eq_false_2 by done. rewrite bool_decide_eq_true_2 by done.
  cbn [orb andb]. rewrite Hts. cbn [configured]. rewrite Hp.
  unfold FetchApiTs.refreshToken. rewrite Hts. cbn [configured]. rewrite Hp.
  unfold FetchApiTs.encode at 1. rewrite Hcv. cbn [body Object_values own_props fmap option_fmap option_map].
  eexists. split; [reflexivity|].
  assert (Hw1 : ∃ e, trace w1 = trace w ++ [EvFetch a; e]
                ∧ fetch_entries [e] = [] ∧ requests [e] = []
                ∧ storage w1 = storage w ∧ auth_header w1 = auth_header w).
  { unfold FetchApiTs.encode in He. rewrite Hcv in He.
    destruct (Object_values (body a)); [|done].
    destruct (find_truthy is_File l); injection He as <- <-;
      eexists; cbn [trace storage emit delete_header set_header];
      rewrite <- !app_assoc; (split; [reflexivity|]);
      (split; [done|]); (split; [done|]); (split; [done|]);
      unfold auth_header, Headers_get;
      cbn [headers emit delete_header set_header];
      unfold Headers_delete, Headers_put.
    - by rewrite lookup_delete_ne.
    - by rewrite lookup_insert_ne. }
  destruct Hw1 as (e & Htr & Hf & Hq & Hs & Ha).
  cbn [trace storage emit]. rewrite Htr.
  rewrite <- !app_assoc. 
  change ([EvFetch a; e] ++ [EvRequest ?r] ++ [EvFetch ?t])
    with ([EvFetch a] ++ [e] ++ [EvRequest r] ++ [EvFetch t]).
  split.
  { rewrite !fetch_entries_app, Hf. cbn [fetch_entries app]. done. }
  split.
  { rewrite !requests_app, Hq. cbn [requests app].
    rewrite length_app. cbn [length]. lia. }
  split; [done|]. unfold auth_header in *. cbn [headers emit]. exact Ha.
Qed.

Lemma FetchApiTs_conversion_breaks_token_path_witness :
  ∃ w',
    FetchApiTs.fetch Scenario.refresh_succeeds 2 Scenario.ts_uploading
      Scenario.post_a1 (Scenario.fresh ∅)
    = Some (Reject failed_to_get_token, w')
    ∧ fetch_entries (trace w') = [Scenario.post_a1; token_fetch "/refresh"].
Proof.
  destruct (FetchApiTs_conversion_breaks_token_path Scenario.refresh_succeeds 0
              Scenario.ts_uploading Scenario.post_a1 (Scenario.fresh ∅)
              (body Scenario.post_a1)
              (json_entry Scenario.post_a1 (Scenario.fresh ∅))
              (mkResponse 401 (Some (VObj [("message", VStr "Unauthorized")])))
              "/refresh" eq_refl eq_refl eq_refl eq_refl eq_refl eq_refl eq_refl)
    as (w' & Hrun & Hf & _).
  exists w'. split; [exact Hrun|exact Hf].
Defined.
